(** * AuthCard: the view / submission state machine of better-auth-react

    A shallow embedding of [src/components/auth-card.tsx].  The component
    is a React function component: six [useState] cells, one asynchronous
    handler ([onSubmit]), four [useEffect] reactions and a render function
    whose [disabled] / [required] / [href] attributes decide which user
    events the browser can deliver.  State cells become a record, handlers
    and effects become functions to lists of operations (state writes and
    calls to the outside, in program order), and React's commit / effect
    cycle becomes an executable transition function on configurations. *)

From Stdlib Require Import String Ascii List Bool Arith Lia.
Import ListNotations.
Open Scope string_scope.
Open Scope list_scope.

(** ** JavaScript values and strings *)

Module Js.

(** The values that can sit behind an [unknown]-typed property (a
    natural number stands for the numbers: only zero matters below). *)
Inductive value :=
| undefined
| null
| boolean (b : bool)
| number (n : nat)
| str (s : string)
| object.

(** ToBoolean. *)
Definition truthy (v : value) : bool :=
  match v with
  | undefined | null => false
  | boolean b => b
  | number n => negb (Nat.eqb n 0)
  | str s => negb (String.eqb s "")
  | object => true
  end.

(** Truthiness of an optional boolean prop ([undefined] when omitted). *)
Definition truthy_flag (f : option bool) : bool :=
  match f with Some b => b | None => false end.

(** Truthiness of an optional string: [undefined] and [""] are falsy. *)
Definition truthy_string (s : option string) : bool :=
  match s with
  | Some s => negb (String.eqb s "")
  | None => false
  end.

(** [a || b] on optional strings. *)
Definition or_string (a b : option string) : option string :=
  if truthy_string a then a else b.

Definition slash : ascii := "/"%char.

(** [s.split("/")]: the pieces between the separators; never empty. *)
Fixpoint split_slash (s : string) : list string :=
  match s with
  | EmptyString => [EmptyString]
  | String c rest =>
      if Ascii.eqb c slash then EmptyString :: split_slash rest
      else match split_slash rest with
           | seg :: segs => String c seg :: segs
           | [] => [String c EmptyString]
           end
  end.

(** [xs.pop()] seen as a value: the last element, [undefined] on []. *)
Fixpoint pop (xs : list string) : option string :=
  match xs with
  | [] => None
  | [x] => Some x
  | _ :: rest => pop rest
  end.

(** Whether the separator occurs in a string. *)
Fixpoint has_slash (s : string) : bool :=
  match s with
  | EmptyString => false
  | String c rest => Ascii.eqb c slash || has_slash rest
  end.

(** The text after the last ['/'] of a string (the whole string when it
    has none): the "final segment" in the words of the specification. *)
Fixpoint after_last_slash (s : string) : string :=
  match s with
  | EmptyString => EmptyString
  | String c rest =>
      if has_slash rest then after_last_slash rest
      else if Ascii.eqb c slash then rest
      else s
  end.

End Js.

(** ** Views *)

Inductive AuthView := login | signup | forgot_password | reset_password | logout.

Definition view_name (v : AuthView) : string :=
  match v with
  | login => "login"
  | signup => "signup"
  | forgot_password => "forgot-password"
  | reset_password => "reset-password"
  | logout => "logout"
  end.

Definition authViews : list AuthView :=
  [login; signup; forgot_password; reset_password; logout].

Definition AuthView_eqb (a b : AuthView) : bool :=
  match a, b with
  | login, login | signup, signup | forgot_password, forgot_password
  | reset_password, reset_password | logout, logout => true
  | _, _ => false
  end.

(** [authViews.includes(path)] followed by the cast [path as AuthView]:
    the view whose name is exactly [path], if any. *)
Definition includes_view (path : option string) : option AuthView :=
  match path with
  | None => None
  | Some p => find (fun v => String.eqb (view_name v) p) authViews
  end.

(** ** Data the component receives *)

(** The part of Next's router object the component reads; [push] is
    always there when the router is. *)
Record NextRouter := { asPath : string; isReady : bool }.

(** A link component supplied by the host.  Its body is host code; what
    matters to the widget is whether it attaches the [onClick] it is
    handed to the element it renders. *)
Record HostLink := { forwards_onClick : bool }.

Record AuthCardProps := {
  navigate : bool;                      (* is a [navigate] function supplied *)
  pathname : option string;
  nextRouter : option NextRouter;
  initialView : option AuthView;
  emailPassword : option bool;
  magicLink : option bool;
  startWithMagicLink : option bool;
  disableRouting : option bool;
  disableAnimation : option bool;
  toast : bool;                         (* is a [toast] sink supplied *)
  LinkComponent : option HostLink       (* [None]: [DefaultLink] *)
}.

(** Destructuring defaults: [initialView = "login"], [emailPassword = true]. *)
Definition initialView_or_default (p : AuthCardProps) : AuthView :=
  match initialView p with Some v => v | None => login end.

Definition emailPassword_or_default (p : AuthCardProps) : bool :=
  match emailPassword p with Some b => b | None => true end.

(** The three functions [navigate] can end up bound to. *)
Inductive NavFn := props_navigate | nextRouter_push | defaultNavigate.

(** [navigate = navigate || nextRouter?.push || defaultNavigate] *)
Definition resolved_navigate (p : AuthCardProps) : NavFn :=
  if navigate p then props_navigate
  else match nextRouter p with
       | Some _ => nextRouter_push
       | None => defaultNavigate
       end.

(** [pathname = pathname || nextRouter?.asPath] *)
Definition resolved_pathname (p : AuthCardProps) : option string :=
  Js.or_string (pathname p) (option_map asPath (nextRouter p)).

Record User := { isAnonymous : Js.value }.

(** [ref] stands for the identity of the JavaScript object: React compares
    effect dependencies with [Object.is]. *)
Record SessionData := { ref : nat; user : option User }.

(** Modelled from the spec: the result of [authClient.useSession()], whose
    body belongs to the authentication client and is not among the sources.
    The observation is pending, absent, or present with a user entity;
    [data] is the session object only in the last case. *)
Inductive SessionObservation :=
| pending
| absent
| present (d : SessionData).

Definition sessionData (o : SessionObservation) : option SessionData :=
  match o with present d => Some d | _ => None end.

Definition isPending (o : SessionObservation) : bool :=
  match o with pending => true | _ => false end.

(** What the backend hands back from a call: [{ error }] with an optional
    [message]. *)
Record BackendError := { message : option string; status : nat }.
Record Response := { error : option BackendError }.

(** ** Component state *)

Inductive ToastVariant := variant_default | destructive.

Record ToastAction := { label : string }.

Record AuthToastOptions := {
  description : string;
  variant : ToastVariant;
  action : option ToastAction
}.

Record State := {
  email : string;
  password : string;
  loading : bool;
  view : AuthView;
  isMagicLink : bool;
  authToast : option AuthToastOptions
}.

(** The [useState] initialisers. *)
Definition initial_state (p : AuthCardProps) : State :=
  {| email := "";
     password := "";
     loading := false;
     view := initialView_or_default p;
     isMagicLink := Js.truthy_flag (startWithMagicLink p)
                    || negb (emailPassword_or_default p);
     authToast := None |}.

(** ** Operations *)

(** The operations of the authentication client the widget could reach
    through its [authClient] handle. *)
Inductive BackendOp :=
| signIn_email (em pw : string)
| signIn_magicLink (em : string)
| signUp_email (em pw : string)
| forgetPassword (em : string)
| resetPassword (pw : string)
| signOut.

(** What a handler or an effect does, statement by statement: writes to
    the state cells and calls that leave the component. *)
Inductive Op :=
| preventDefault
| setEmail (s : string)
| setPassword (s : string)
| setLoading (b : bool)
| setView (v : AuthView)
| setIsMagicLink (b : bool)
| setAuthToast (t : option AuthToastOptions)
| call_navigate (f : NavFn) (url : string)
| call_backend (b : BackendOp)
| call_toast (t : AuthToastOptions)
| follow_href (url : string).

Definition write (s : State) (o : Op) : State :=
  match o with
  | setEmail x =>
      {| email := x; password := password s; loading := loading s;
         view := view s; isMagicLink := isMagicLink s; authToast := authToast s |}
  | setPassword x =>
      {| email := email s; password := x; loading := loading s;
         view := view s; isMagicLink := isMagicLink s; authToast := authToast s |}
  | setLoading b =>
      {| email := email s; password := password s; loading := b;
         view := view s; isMagicLink := isMagicLink s; authToast := authToast s |}
  | setView v =>
      {| email := email s; password := password s; loading := loading s;
         view := v; isMagicLink := isMagicLink s; authToast := authToast s |}
  | setIsMagicLink b =>
      {| email := email s; password := password s; loading := loading s;
         view := view s; isMagicLink := b; authToast := authToast s |}
  | setAuthToast t =>
      {| email := email s; password := password s; loading := loading s;
         view := view s; isMagicLink := isMagicLink s; authToast := t |}
  | _ => s
  end.

(** The state after a run of operations, and every state on the way. *)
Definition writes (s : State) (ops : list Op) : State := fold_left write ops s.

Fixpoint states_along (s : State) (ops : list Op) : list State :=
  match ops with
  | [] => [s]
  | o :: rest => s :: states_along (write s o) rest
  end.

(** The calls among the operations: what an observer outside the
    component can see. *)
Definition is_call (o : Op) : bool :=
  match o with
  | call_navigate _ _ | call_backend _ | call_toast _ | follow_href _ => true
  | _ => false
  end.

Definition calls (ops : list Op) : list Op := filter is_call ops.

Definition is_navigate (o : Op) : bool :=
  match o with call_navigate _ _ => true | _ => false end.

Definition is_backend (o : Op) : bool :=
  match o with call_backend _ => true | _ => false end.

Definition navigations (ops : list Op) : list Op := filter is_navigate ops.
Definition backend_calls (ops : list Op) : list Op := filter is_backend ops.

(** ** The submit handler *)

(** [error?.message], when truthy. *)
Definition error_message (r : Response) : option string :=
  match error r with
  | Some e => if Js.truthy_string (message e) then message e else None
  | None => None
  end.

(** [onSubmit] up to its [await]: the statements run when the form is
    submitted, in program order. *)
Definition onSubmit_start (s : State) : list Op :=
  [ preventDefault;
    setAuthToast None;
    setLoading true;
    call_backend (signIn_email (email s) (password s)) ].

(** [onSubmit] after its [await], once the backend has answered [r]. *)
Definition onSubmit_resume (r : Response) : list Op :=
  setLoading false ::
  match error_message r with
  | Some m =>
      [ setAuthToast
          (Some {| description := m; variant := destructive; action := None |}) ]
  | None => []
  end.

(** ** The effects *)

(** [(sessionData.user as Record<string, unknown>)?.isAnonymous] *)
Definition user_isAnonymous (d : SessionData) : Js.value :=
  match user d with
  | Some u => isAnonymous u
  | None => Js.undefined
  end.

(** [useEffect(..., [sessionData])] *)
Definition session_effect (p : AuthCardProps) (o : SessionObservation) : list Op :=
  match sessionData o with
  | Some d =>
      if negb (Js.truthy (user_isAnonymous d))
      then [call_navigate (resolved_navigate p) "/"]
      else []
  | None => []
  end.

(** [useEffect(..., [pathname])] *)
Definition pathname_effect (p : AuthCardProps) : list Op :=
  if negb (Js.truthy_string (resolved_pathname p)) then []
  else
    let path :=
      match resolved_pathname p with
      | Some s => Js.pop (Js.split_slash s)
      | None => None
      end in
    match includes_view path with
    | Some v => [setView v]
    | None => []
    end.

(** [useEffect(..., [view])] *)
Definition view_effect (s : State) : list Op :=
  if negb (AuthView_eqb (view s) login) then [setIsMagicLink false] else [].

(** [useEffect(..., [authToast])] *)
Definition toast_effect (p : AuthCardProps) (s : State) : list Op :=
  match authToast s with
  | Some t => if toast p then [call_toast t] else []
  | None => []
  end.

(** The dependency values of a render.  The session object is compared by
    identity.  The notification is compared by content: between two writes
    of a notification object to the cell there is always a render in which
    the cell is [null] ([onSubmit_start] clears it first), so content and
    identity agree across consecutive renders. *)
Record Deps := {
  dep_sessionData : option nat;
  dep_pathname : option string;
  dep_view : AuthView;
  dep_authToast : option AuthToastOptions
}.

Definition option_eqb {A} (eqb : A -> A -> bool) (a b : option A) : bool :=
  match a, b with
  | Some x, Some y => eqb x y
  | None, None => true
  | _, _ => false
  end.

Definition ToastVariant_eqb (a b : ToastVariant) : bool :=
  match a, b with
  | variant_default, variant_default | destructive, destructive => true
  | _, _ => false
  end.

Definition AuthToastOptions_eqb (a b : AuthToastOptions) : bool :=
  String.eqb (description a) (description b)
  && ToastVariant_eqb (variant a) (variant b)
  && option_eqb (fun x y => String.eqb (label x) (label y)) (action a) (action b).

Definition deps_of (p : AuthCardProps) (o : SessionObservation) (s : State) : Deps :=
  {| dep_sessionData := option_map ref (sessionData o);
     dep_pathname := resolved_pathname p;
     dep_view := view s;
     dep_authToast := authToast s |}.

(** Whether a dependency differs from its value at the previous commit;
    at mount there is no previous commit and every effect runs. *)
Definition changed {A} (eqb : A -> A -> bool) (get : Deps -> A)
    (prev : option Deps) (cur : Deps) : bool :=
  match prev with
  | Some d => negb (eqb (get d) (get cur))
  | None => true
  end.

Definition sessionData_changed := changed (option_eqb Nat.eqb) dep_sessionData.
Definition pathname_changed := changed (option_eqb String.eqb) dep_pathname.
Definition view_changed := changed AuthView_eqb dep_view.
Definition authToast_changed := changed (option_eqb AuthToastOptions_eqb) dep_authToast.

(** The effects React runs after committing a render, in the order the
    component declares them; each sees the values of that render. *)
Definition effects (prev : option Deps) (p : AuthCardProps)
    (o : SessionObservation) (s : State) : list Op :=
  let cur := deps_of p o s in
  (if sessionData_changed prev cur then session_effect p o else [])
  ++ (if pathname_changed prev cur then pathname_effect p else [])
  ++ (if view_changed prev cur then view_effect s else [])
  ++ (if authToast_changed prev cur then toast_effect p s else []).

Definition effects_due (prev : option Deps) (cur : Deps) : bool :=
  sessionData_changed prev cur || pathname_changed prev cur
  || view_changed prev cur || authToast_changed prev cur.

(** ** What is rendered *)

Record InputEl := {
  el_id : string;
  el_type : string;
  el_required : bool;
  el_disabled : bool;
  el_value : string
}.

Record ButtonEl := {
  btn_type : string;
  btn_disabled : bool;
  btn_onClick : list Op
}.

Definition email_input (s : State) : InputEl :=
  {| el_id := "email"; el_type := "email"; el_required := true;
     el_disabled := false; el_value := email s |}.

Definition password_input (s : State) : InputEl :=
  {| el_id := "password"; el_type := "password"; el_required := false;
     el_disabled := isMagicLink s; el_value := password s |}.

Definition form_inputs (s : State) : list InputEl :=
  [email_input s; password_input s].

Definition submit_button (s : State) : ButtonEl :=
  {| btn_type := "submit"; btn_disabled := loading s; btn_onClick := [] |}.

Definition magic_link_button (p : AuthCardProps) (s : State) : ButtonEl :=
  {| btn_type := "button";
     btn_disabled := negb (AuthView_eqb (view s) login)
                     || negb (Js.truthy_flag (magicLink p))
                     || isMagicLink s;
     btn_onClick := [setIsMagicLink true] |}.

Definition password_provider_button (p : AuthCardProps) (s : State) : ButtonEl :=
  {| btn_type := "button";
     btn_disabled := negb (AuthView_eqb (view s) login)
                     || negb (emailPassword_or_default p)
                     || negb (isMagicLink s);
     btn_onClick := [setIsMagicLink false] |}.

(** The clickable element a piece of JSX ends up as. *)
Inductive Dom :=
| dom_button (onClick : list Op)
| dom_anchor (href : string) (onClick : list Op).

(** [DefaultLink]: reads [href], [className] and [children] from its props
    and renders a plain anchor; any other prop it is handed is dropped. *)
Definition DefaultLink (href : string) (onClick : list Op) : Dom :=
  dom_anchor href [].

Definition render_link (lc : option HostLink) (href : string) (onClick : list Op) : Dom :=
  match lc with
  | None => DefaultLink href onClick
  | Some h => dom_anchor href (if forwards_onClick h then onClick else [])
  end.

(** The footer toggle.  With [asChild] false the [Button] is an ordinary
    button carrying [onClick]; with [asChild] true it renders its child,
    the link component, and hands it the button's props. *)
Definition footer_toggle (p : AuthCardProps) (s : State) : Dom :=
  let onClick := [setView (if AuthView_eqb (view s) signup then login else signup)] in
  let asChild := negb (Js.truthy_flag (disableRouting p)) in
  let child :=
    if Js.truthy_flag (disableRouting p) then None
    else Some (if AuthView_eqb (view s) signup then "/auth/login" else "/auth/signup") in
  match asChild, child with
  | true, Some href => render_link (LinkComponent p) href onClick
  | _, _ => dom_button onClick
  end.

(** The "forgot password" anchor carries a fixed [href] and no handler. *)
Definition forgot_password_link : Dom := dom_anchor "/forgot-password" [].

(** A click: the handler attached to the element runs; an anchor is then
    followed by the browser. *)
Definition click (d : Dom) : list Op :=
  match d with
  | dom_button h => h
  | dom_anchor href h => h ++ [follow_href href]
  end.

(** ** The component as a transition system *)

Section Widget.

(** The browser's syntax check on the value of an [type="email"] input. *)
Variable email_syntax_ok : string -> bool.

(** Constraint validation as the browser applies it when the user submits
    a form: a disabled control is barred from validation; a required
    control must have a value; a non-empty e-mail value must be well
    formed. *)
Definition invalid (i : InputEl) : bool :=
  negb (el_disabled i)
  && ((el_required i && String.eqb (el_value i) "")
      || (String.eqb (el_type i) "email"
          && negb (String.eqb (el_value i) "")
          && negb (email_syntax_ok (el_value i)))).

(** The user can submit the form (by the submit button or by Enter in a
    field) only when the submit button is enabled and no control is
    invalid; only then is [onSubmit] called. *)
Definition can_submit (s : State) : bool :=
  negb (btn_disabled (submit_button s))
  && forallb (fun i => negb (invalid i)) (form_inputs s).

Record Config := {
  props : AuthCardProps;
  session : SessionObservation;
  state : State;
  committed : option Deps;       (* dependencies at the last effect run *)
  outstanding : list BackendOp;  (* requests sent and not yet answered *)
  trace : list Op                (* calls made so far, oldest first *)
}.

Definition mount (p : AuthCardProps) (o : SessionObservation) : Config :=
  {| props := p; session := o; state := initial_state p;
     committed := None; outstanding := []; trace := [] |}.

Definition current_deps (c : Config) : Deps :=
  deps_of (props c) (session c) (state c).

(** No effect is waiting to run. *)
Definition settled (c : Config) : bool :=
  negb (effects_due (committed c) (current_deps c)).

(** Run a handler's operations: the writes reach the state cells, the
    calls reach the outside. *)
Definition perform (c : Config) (ops : list Op) : Config :=
  {| props := props c; session := session c;
     state := writes (state c) ops;
     committed := committed c;
     outstanding := outstanding c;
     trace := trace c ++ calls ops |}.

(** Run the effects of the committed render. *)
Definition flush (c : Config) : Config :=
  let ops := effects (committed c) (props c) (session c) (state c) in
  {| props := props c; session := session c;
     state := writes (state c) ops;
     committed := Some (current_deps c);
     outstanding := outstanding c;
     trace := trace c ++ calls ops |}.

Definition with_props (c : Config) (p : AuthCardProps) : Config :=
  {| props := p; session := session c; state := state c;
     committed := committed c; outstanding := outstanding c; trace := trace c |}.

Definition with_session (c : Config) (o : SessionObservation) : Config :=
  {| props := props c; session := o; state := state c;
     committed := committed c; outstanding := outstanding c; trace := trace c |}.

Definition with_outstanding (c : Config) (l : list BackendOp) : Config :=
  {| props := props c; session := session c; state := state c;
     committed := committed c; outstanding := l; trace := trace c |}.

Definition press (c : Config) (b : ButtonEl) : option Config :=
  if btn_disabled b then None else Some (perform c (btn_onClick b)).

Inductive Event :=
| host_render (p : AuthCardProps)
| session_update (o : SessionObservation)
| run_effects
| type_email (s : string)
| type_password (s : string)
| submit
| response (r : Response)
| click_magic_link
| click_password_provider
| click_footer_toggle
| click_forgot_password.

(** The handler's share of an event: what the committed render lets the
    event do.  [None]: the event cannot happen on this render (a disabled
    control, an invalid form, no request outstanding). *)
Definition deliver (c : Config) (e : Event) : option Config :=
  match e with
  | run_effects => None
  | host_render p => Some (with_props c p)
  | session_update o => Some (with_session c o)
  | type_email x => Some (perform c [setEmail x])
  | type_password x =>
      if el_disabled (password_input (state c)) then None
      else Some (perform c [setPassword x])
  | submit =>
      if can_submit (state c)
      then Some (with_outstanding
                   (perform c (onSubmit_start (state c)))
                   (outstanding c
                    ++ [signIn_email (email (state c)) (password (state c))]))
      else None
  | response r =>
      match outstanding c with
      | [] => None
      | _ :: rest =>
          Some (with_outstanding (perform c (onSubmit_resume r)) rest)
      end
  | click_magic_link => press c (magic_link_button (props c) (state c))
  | click_password_provider =>
      press c (password_provider_button (props c) (state c))
  | click_footer_toggle =>
      Some (perform c (click (footer_toggle (props c) (state c))))
  | click_forgot_password => Some (perform c (click forgot_password_link))
  end.

(** An event that arrives while the effects of the committed render [c]
    are still pending: the handler has run on that render (giving [c1]),
    then React runs the pending effects, with the values of the render
    [c], before it renders again.  Their writes are queued behind the
    handler's, their calls come after the handler's. *)
Definition late_effects (c c1 : Config) : Config :=
  let ops := effects (committed c) (props c) (session c) (state c) in
  {| props := props c1; session := session c1;
     state := writes (state c1) ops;
     committed := Some (current_deps c);
     outstanding := outstanding c1;
     trace := trace c1 ++ calls ops |}.

(** One transition.  [run_effects] is the effect pass of the committed
    render running on its own.  Any other event is delivered to the
    committed render whether or not its effects have run; when they have
    not, they run right after the handler ([late_effects]).  [None]: the
    event cannot happen in this configuration. *)
Definition handle (c : Config) (e : Event) : option Config :=
  match e with
  | run_effects => if settled c then None else Some (flush c)
  | _ =>
      if negb (settled c) then option_map (late_effects c) (deliver c e)
      else deliver c e
  end.

Fixpoint run (c : Config) (es : list Event) : option Config :=
  match es with
  | [] => Some c
  | e :: rest =>
      match handle c e with
      | Some c' => run c' rest
      | None => None
      end
  end.

(** The configurations the widget can be in. *)
Definition reachable (c : Config) : Prop :=
  exists p o es, run (mount p o) es = Some c.

(** What the handler's share of an event can be, event by event. *)
Definition deliver_shape (c : Config) (e : Event) (c1 : Config) : Prop :=
  match e with
  | run_effects => False
  | host_render p => c1 = with_props c p
  | session_update o => c1 = with_session c o
  | type_email x => c1 = perform c [setEmail x]
  | type_password x =>
      isMagicLink (state c) = false /\ c1 = perform c [setPassword x]
  | submit =>
      can_submit (state c) = true
      /\ c1 = with_outstanding (perform c (onSubmit_start (state c)))
                (outstanding c
                 ++ [signIn_email (email (state c)) (password (state c))])
  | response r =>
      exists b rest, outstanding c = b :: rest
         /\ c1 = with_outstanding (perform c (onSubmit_resume r)) rest
  | click_magic_link =>
      btn_disabled (magic_link_button (props c) (state c)) = false
      /\ c1 = perform c [setIsMagicLink true]
  | click_password_provider =>
      btn_disabled (password_provider_button (props c) (state c)) = false
      /\ c1 = perform c [setIsMagicLink false]
  | click_footer_toggle =>
      c1 = perform c (click (footer_toggle (props c) (state c)))
  | click_forgot_password => c1 = perform c (click forgot_password_link)
  end.

(** What a transition can be. *)
Definition step_shape (c : Config) (e : Event) (c' : Config) : Prop :=
  match e with
  | run_effects => settled c = false /\ c' = flush c
  | _ =>
      exists c1, deliver_shape c e c1
                 /\ c' = if settled c then c1 else late_effects c c1
  end.

(** The operations of the handler of an event. *)
Definition handler_ops (c : Config) (e : Event) : list Op :=
  match e with
  | run_effects | host_render _ | session_update _ => []
  | type_email x => [setEmail x]
  | type_password x => [setPassword x]
  | submit => onSubmit_start (state c)
  | response r => onSubmit_resume r
  | click_magic_link => [setIsMagicLink true]
  | click_password_provider => [setIsMagicLink false]
  | click_footer_toggle => click (footer_toggle (props c) (state c))
  | click_forgot_password => click forgot_password_link
  end.

(** The effects of the committed render that a step runs. *)
Definition pending_ops (c : Config) : list Op :=
  if settled c then []
  else effects (committed c) (props c) (session c) (state c).

(** The operations a step performs: the handler's, then the pending
    effects'. *)
Definition step_ops (c : Config) (e : Event) : list Op :=
  handler_ops c e ++ pending_ops c.

(** Magic-link mode on a view other than login survives only until the
    view reaction, which is then due, has run. *)
Definition mode_inv (c : Config) : Prop :=
  isMagicLink (state c) = true -> view (state c) <> login ->
  view_changed (committed c) (current_deps c) = true.

(** Either nothing is outstanding and the flag is down, or exactly one
    request is outstanding, the flag is up and the notification is null. *)
Definition flight_inv (c : Config) : Prop :=
  (outstanding c = [] /\ loading (state c) = false)
  \/ (exists b, outstanding c = [b]
                /\ loading (state c) = true /\ authToast (state c) = None).

End Widget.

(** ** Texts *)

(** A JavaScript object used as a table from keys to texts, in insertion
    order; a value [None] is a property that is there with the value
    [undefined], which [Partial<...>] allows in the overrides. *)
Definition Dict := list (string * option string).

(** [k in o] *)
Definition has_key (o : Dict) (k : string) : bool :=
  existsb (fun kv => String.eqb (fst kv) k) o.

(** [o[k]]: [undefined] when the key is missing. *)
Fixpoint get (o : Dict) (k : string) : option string :=
  match o with
  | [] => None
  | (k', v) :: rest => if String.eqb k' k then v else get rest k
  end.

(** [o[k] = v] on a copy: an existing key keeps its place. *)
Fixpoint put (o : Dict) (k : string) (v : option string) : Dict :=
  match o with
  | [] => [(k, v)]
  | (k', v') :: rest =>
      if String.eqb k' k then (k', v) :: rest else (k', v') :: put rest k v
  end.

(** [{ ...a, ...b }] *)
Definition spread (a b : Dict) : Dict :=
  fold_left (fun acc kv => put acc (fst kv) (snd kv)) b a.

Definition defaultLocalization : list (string * string) :=
  [ ("login_title", "Login");
    ("signup_title", "Sign Up");
    ("forgot_password_title", "Forgot Password");
    ("reset_password_title", "Reset Password");
    ("login_description", "Enter your email below to login to your account");
    ("signup_description", "Enter your information to create an account");
    ("email_label", "Email Address");
    ("username_label", "Username");
    ("password_label", "Password");
    ("email_placeholder", "m@example.com");
    ("username_placeholder", "Username");
    ("password_placeholder", "Password");
    ("login_button", "Login");
    ("signup_button", "Sign Up");
    ("forgot_password_button", "Send Reset Password Link");
    ("reset_password_button", "Reset Password");
    ("provider_prefix", "Continue with");
    ("magic_link_provider", "Magic Link");
    ("password_provider", "Password");
    ("login_footer", "Don't have an account?");
    ("signup_footer", "Already have an account?");
    ("forgot_password", "Forgot your password?");
    ("login", "Login");
    ("signup", "Sign Up");
    ("email_confirmation_text", "Check your email for the confirmation link");
    ("email_reset_password_text", "Check your email for the password reset link");
    ("email_magic_link_text", "Check your email for the magic link");
    ("error", "Error");
    ("alert", "Alert") ].

(** [localization = { ...defaultLocalization, ...localization }]; the
    [localization] prop is taken as an argument of its own. *)
Definition localized (l : option Dict) : Dict :=
  spread (map (fun kv => (fst kv, Some (snd kv))) defaultLocalization)
         (match l with Some d => d | None => [] end).

(** [s.replace(a, b)] for one-character strings [a] and [b]: the first
    occurrence only. *)
Fixpoint replace_first (a b : ascii) (s : string) : string :=
  match s with
  | EmptyString => EmptyString
  | String c rest =>
      if Ascii.eqb c a then String b rest
      else String c (replace_first a b rest)
  end.

Fixpoint occurrences (a : ascii) (s : string) : nat :=
  match s with
  | EmptyString => 0
  | String c rest => (if Ascii.eqb c a then 1 else 0) + occurrences a rest
  end.

(** [`${view.replace("-", "_")}${suffix}`] *)
Definition text_key (v : AuthView) (suffix : string) : string :=
  replace_first "-"%char "_"%char (view_name v) ++ suffix.

(** The three texts looked up by view. *)
Definition card_title (l : option Dict) (s : State) : option string :=
  get (localized l) (text_key (view s) "_title").

Definition card_description (l : option Dict) (s : State) : option string :=
  get (localized l) (text_key (view s) "_description").

Definition submit_label (l : option Dict) (s : State) : option string :=
  get (localized l) (text_key (view s) "_button").

(** [xs.join("/")] *)
Fixpoint join_slash (xs : list string) : string :=
  match xs with
  | [] => EmptyString
  | [x] => x
  | x :: rest => x ++ String Js.slash (join_slash rest)
  end.

(** ** Visibility *)

(** The password block carries [hideElementClass]. *)
Definition password_block_hidden (s : State) : bool := isMagicLink s.

(** The "forgot password" anchor is shown (["h-6"]). *)
Definition forgot_link_shown (o : SessionObservation) (s : State) : bool :=
  AuthView_eqb (view s) login && negb (isMagicLink s) && negb (isPending o).

(** The wrappers of the two provider buttons carry [hideElementClass]. *)
Definition magic_link_button_hidden (p : AuthCardProps) (s : State) : bool :=
  negb (AuthView_eqb (view s) login)
  || negb (Js.truthy_flag (magicLink p))
  || isMagicLink s.

Definition password_provider_button_hidden (p : AuthCardProps) (s : State) : bool :=
  negb (AuthView_eqb (view s) login)
  || negb (emailPassword_or_default p)
  || negb (isMagicLink s).

(** The inline alert region exists only without a [toast] sink, and
    carries [hideElementClass] while there is no notification. *)
Definition inline_alert_shown (p : AuthCardProps) (s : State) : bool :=
  negb (toast p)
  && match authToast s with Some _ => true | None => false end.



Definition is_toast (o : Op) : bool :=
  match o with call_toast _ => true | _ => false end.

Definition toasts (ops : list Op) : list Op := filter is_toast ops.

(** The view the footer toggle leads to, and the target of its link. *)
Definition toggled (v : AuthView) : AuthView :=
  if AuthView_eqb v signup then login else signup.

Definition toggle_href (v : AuthView) : string :=
  if AuthView_eqb v signup then "/auth/login" else "/auth/signup".

(** What each kind of call of the trace can be. *)
Definition known_call (o : Op) : Prop :=
  match o with
  | call_navigate _ url => url = "/"
  | call_backend b => exists em pw, b = signIn_email em pw
  | call_toast t => variant t = destructive /\ action t = None
  | follow_href url =>
      url = "/auth/login" \/ url = "/auth/signup" \/ url = "/forgot-password"
  | _ => False
  end.

(** A notification as [onSubmit] builds it. *)
Definition built_by_onSubmit (t : option AuthToastOptions) : Prop :=
  match t with
  | Some t => variant t = destructive /\ action t = None /\ description t <> ""
  | None => True
  end.

(** ** Sample inputs *)

(** A stand-in for the browser's e-mail check: the value contains ["@"]. *)
Fixpoint has_at (s : string) : bool :=
  match s with
  | EmptyString => false
  | String c rest => Ascii.eqb c "@"%char || has_at rest
  end.

(** A host that supplies [navigate] and the listed props, nothing else. *)
Definition sample_props (iv : option AuthView) (path : option string)
    (ml start noRouting : option bool) : AuthCardProps :=
  {| navigate := true; pathname := path; nextRouter := None;
     initialView := iv; emailPassword := None; magicLink := ml;
     startWithMagicLink := start; disableRouting := noRouting;
     disableAnimation := None; toast := false; LinkComponent := None |}.

Definition plain_props : AuthCardProps := sample_props None None None None None.

(** A host with a notification sink. *)
Definition sink_props : AuthCardProps :=
  {| navigate := true; pathname := None; nextRouter := None;
     initialView := None; emailPassword := None; magicLink := None;
     startWithMagicLink := None; disableRouting := None;
     disableAnimation := None; toast := true; LinkComponent := None |}.

(** A host that offers magic links and has routing disabled. *)
Definition routing_off_props : AuthCardProps :=
  sample_props None None (Some true) None (Some true).

Definition invalid_credentials : Response :=
  {| error := Some {| message := Some "Invalid credentials"; status := 401 |} |}.

Definition alice : SessionData :=
  {| ref := 1; user := Some {| isAnonymous := Js.undefined |} |}.

Definition guest : SessionData :=
  {| ref := 2; user := Some {| isAnonymous := Js.boolean true |} |}.

(** The configuration a run from mount ends in (the mounted one when
    some event of the run cannot happen). *)
Definition after (p : AuthCardProps) (es : list Event) : Config :=
  match run has_at (mount p pending) es with
  | Some c => c
  | None => mount p pending
  end.

(** Mounted, effects run, credentials typed in. *)
Definition typed_in (p : AuthCardProps) (em pw : string) : Config :=
  after p [run_effects; type_email em; type_password pw].

(** The same with the form submitted and the request in flight. *)
Definition in_flight (p : AuthCardProps) (em pw : string) : Config :=
  after p [run_effects; type_email em; type_password pw; submit].

(** Submitted and in flight, on a host with a notification sink. *)
Definition in_flight_with_sink (em pw : string) : Config :=
  after sink_props [run_effects; type_email em; type_password pw; submit].

(** * Properties *)

(** ** Strings and view names *)

Lemma AuthView_eqb_eq : forall a b, AuthView_eqb a b = true <-> a = b.
Proof. intros [] []; simpl; split; intro H; congruence. Qed.

Lemma AuthView_eqb_refl : forall a, AuthView_eqb a a = true.
Proof. intros []; reflexivity. Qed.

Lemma AuthView_eqb_neq : forall a b, AuthView_eqb a b = false <-> a <> b.
Proof.
  intros a b. rewrite <- AuthView_eqb_eq.
  destruct (AuthView_eqb a b); split; congruence.
Qed.

Lemma includes_view_name : forall v, includes_view (Some (view_name v)) = Some v.
Proof. intros []; reflexivity. Qed.

Lemma includes_view_Some : forall x v,
  includes_view (Some x) = Some v <-> x = view_name v.
Proof.
  intros x v. split.
  - unfold includes_view, authViews. cbn [find].
    repeat match goal with
           | |- context [String.eqb ?a ?b] =>
               destruct (String.eqb_spec a b) as [? | ?]
           end; intro H; inversion H; subst; auto.
  - intros ->. apply includes_view_name.
Qed.

Lemma includes_view_None : forall x,
  includes_view (Some x) = None <-> (forall v, x <> view_name v).
Proof.
  intros x. split.
  - intros H v E. subst x. rewrite includes_view_name in H. discriminate.
  - intro H. destruct (includes_view (Some x)) as [v |] eqn:E; auto.
    apply includes_view_Some in E. destruct (H v E).
Qed.

Lemma split_slash_nonempty : forall s, Js.split_slash s <> [].
Proof.
  intros [| c rest]; simpl; try discriminate.
  destruct (Ascii.eqb c Js.slash); try discriminate.
  destruct (Js.split_slash rest); discriminate.
Qed.

Lemma split_slash_no_slash : forall s,
  Js.has_slash s = false -> Js.split_slash s = [s].
Proof.
  induction s as [| c rest IH]; simpl; intro H; auto.
  apply orb_false_iff in H. destruct H as [Hc Hr].
  rewrite Hc, (IH Hr). reflexivity.
Qed.

Lemma split_slash_has_slash : forall s,
  Js.has_slash s = true ->
  exists a b rest, Js.split_slash s = a :: b :: rest.
Proof.
  induction s as [| c rest IH]; simpl; intro H; try discriminate.
  destruct (Ascii.eqb c Js.slash) eqn:Hc.
  - destruct (Js.split_slash rest) as [| b l] eqn:E.
    + destruct (split_slash_nonempty _ E).
    + eauto.
  - simpl in H. destruct (IH H) as (a & b & l & E). rewrite E. eauto.
Qed.

Lemma after_last_slash_no_slash : forall s,
  Js.has_slash s = false -> Js.after_last_slash s = s.
Proof.
  destruct s as [| c rest]; simpl; intro H; auto.
  apply orb_false_iff in H. destruct H as [Hc Hr]. rewrite Hr, Hc. reflexivity.
Qed.

Lemma has_slash_app : forall a b,
  Js.has_slash (a ++ b) = Js.has_slash a || Js.has_slash b.
Proof.
  induction a as [| c a IH]; simpl; intro b; auto.
  rewrite IH. apply orb_assoc.
Qed.

(** [after_last_slash] is what its name says: on [pre/seg], where [seg]
    has no separator, it is [seg]. *)
Lemma after_last_slash_spec : forall pre seg,
  Js.has_slash seg = false ->
  Js.after_last_slash (pre ++ String Js.slash seg) = seg.
Proof.
  induction pre as [| c pre IH]; intros seg H; simpl.
  - rewrite H. reflexivity.
  - assert (E : Js.has_slash (pre ++ String Js.slash seg) = true).
    { rewrite has_slash_app. apply orb_true_iff. right. reflexivity. }
    rewrite E. apply IH, H.
Qed.

(** [split("/").pop()] is the text after the last separator. *)
Lemma pop_split_slash : forall s,
  Js.pop (Js.split_slash s) = Some (Js.after_last_slash s).
Proof.
  induction s as [| c rest IH]; auto.
  simpl Js.split_slash. simpl Js.after_last_slash.
  destruct (Js.has_slash rest) eqn:Hs.
  - destruct (split_slash_has_slash _ Hs) as (a & b & l & E).
    rewrite E in *. destruct (Ascii.eqb c Js.slash); exact IH.
  - rewrite (split_slash_no_slash _ Hs).
    destruct (Ascii.eqb c Js.slash); reflexivity.
Qed.

(** The path reaction in closed form. *)
Lemma pathname_effect_eq : forall p,
  pathname_effect p =
  match resolved_pathname p with
  | Some path =>
      match includes_view (Some (Js.after_last_slash path)) with
      | Some v => [setView v]
      | None => []
      end
  | None => []
  end.
Proof.
  intro p. unfold pathname_effect.
  destruct (resolved_pathname p) as [path |]; simpl; auto.
  rewrite pop_split_slash.
  destruct (String.eqb_spec path ""); simpl; auto.
  subst path. reflexivity.
Qed.

(** ** Writes *)

Lemma writes_app : forall ops1 ops2 s,
  writes s (ops1 ++ ops2) = writes (writes s ops1) ops2.
Proof. intros. unfold writes. apply fold_left_app. Qed.

Lemma calls_app : forall a b, calls (a ++ b) = calls a ++ calls b.
Proof. intros. apply filter_app. Qed.

Lemma navigations_app : forall a b,
  navigations (a ++ b) = navigations a ++ navigations b.
Proof. intros. apply filter_app. Qed.

Lemma backend_calls_app : forall a b,
  backend_calls (a ++ b) = backend_calls a ++ backend_calls b.
Proof. intros. apply filter_app. Qed.

Lemma navigations_calls : forall ops, navigations (calls ops) = navigations ops.
Proof.
  induction ops as [| o ops IH]; auto.
  destruct o; simpl; auto; f_equal; exact IH.
Qed.

Lemma backend_calls_calls : forall ops,
  backend_calls (calls ops) = backend_calls ops.
Proof.
  induction ops as [| o ops IH]; auto.
  destruct o; simpl; auto; f_equal; exact IH.
Qed.

(** ** The effects, one by one *)

Lemma session_effect_cases : forall p o,
  session_effect p o = [] \/
  session_effect p o = [call_navigate (resolved_navigate p) "/"].
Proof.
  intros p o. unfold session_effect.
  destruct (sessionData o); auto.
  destruct (negb _); auto.
Qed.

Lemma pathname_effect_cases : forall p,
  pathname_effect p = [] \/ exists v, pathname_effect p = [setView v].
Proof.
  intro p. rewrite pathname_effect_eq.
  destruct (resolved_pathname p); auto.
  destruct (includes_view _); eauto.
Qed.

Lemma view_effect_cases : forall s,
  (view s = login /\ view_effect s = []) \/
  (view s <> login /\ view_effect s = [setIsMagicLink false]).
Proof.
  intro s. unfold view_effect.
  destruct (AuthView_eqb (view s) login) eqn:E; simpl.
  - left. split; auto. apply AuthView_eqb_eq, E.
  - right. split; auto. apply AuthView_eqb_neq, E.
Qed.

Lemma toast_effect_cases : forall p s,
  toast_effect p s = [] \/ exists t, toast_effect p s = [call_toast t].
Proof.
  intros p s. unfold toast_effect.
  destruct (authToast s); auto. destruct (toast p); eauto.
Qed.

(** Only the path and view reactions write to the state. *)
Lemma effects_writes : forall prev p o s,
  writes s (effects prev p o s) =
  writes (writes s (if pathname_changed prev (deps_of p o s)
                    then pathname_effect p else []))
         (if view_changed prev (deps_of p o s) then view_effect s else []).
Proof.
  intros. unfold effects. cbv zeta. rewrite !writes_app.
  assert (A : forall x,
    writes x (if sessionData_changed prev (deps_of p o s)
              then session_effect p o else []) = x).
  { intro x. destruct (sessionData_changed _ _); auto.
    destruct (session_effect_cases p o) as [E | E]; rewrite E; reflexivity. }
  assert (D : forall x,
    writes x (if authToast_changed prev (deps_of p o s)
              then toast_effect p s else []) = x).
  { intro x. destruct (authToast_changed _ _); auto.
    destruct (toast_effect_cases p s) as [E | [t E]]; rewrite E; reflexivity. }
  rewrite A, D. reflexivity.
Qed.

(** The effects leave the credentials, the in-flight flag and the
    notification alone. *)
Lemma effects_frame : forall prev p o s,
  let s' := writes s (effects prev p o s) in
  email s' = email s /\ password s' = password s
  /\ loading s' = loading s /\ authToast s' = authToast s.
Proof.
  intros. subst s'. rewrite effects_writes.
  destruct (pathname_changed _ _), (view_changed _ _);
    try (destruct (pathname_effect_cases p) as [E | [v E]]; rewrite E);
    try (destruct (view_effect_cases s) as [[_ E'] | [_ E']]; rewrite E');
    repeat split; reflexivity.
Qed.

(** The effects never switch magic-link mode on. *)
Lemma effects_isMagicLink_mono : forall prev p o s,
  isMagicLink (writes s (effects prev p o s)) = true -> isMagicLink s = true.
Proof.
  intros prev p o s. rewrite effects_writes.
  destruct (pathname_changed _ _), (view_changed _ _);
    try (destruct (pathname_effect_cases p) as [E | [v E]]; rewrite E);
    try (destruct (view_effect_cases s) as [[_ E'] | [_ E']]; rewrite E');
    simpl; auto; discriminate.
Qed.

(** When the view reaction is due on a view other than login, it
    switches magic-link mode off. *)
Lemma effects_reset_isMagicLink : forall prev p o s,
  view_changed prev (deps_of p o s) = true ->
  view s <> login ->
  isMagicLink (writes s (effects prev p o s)) = false.
Proof.
  intros prev p o s Hc Hv. rewrite effects_writes, Hc.
  destruct (view_effect_cases s) as [[E _] | [_ E]]; [contradiction |].
  rewrite E.
  destruct (pathname_changed _ _);
    try (destruct (pathname_effect_cases p) as [E' | [v E']]; rewrite E');
    reflexivity.
Qed.

(** The same facts when the effects' writes land on another state than
    the one they were computed from. *)
Lemma effects_writes_on : forall prev p o s x,
  writes x (effects prev p o s) =
  writes (writes x (if pathname_changed prev (deps_of p o s)
                    then pathname_effect p else []))
         (if view_changed prev (deps_of p o s) then view_effect s else []).
Proof.
  intros. unfold effects. cbv zeta. rewrite !writes_app.
  assert (A : forall y,
    writes y (if sessionData_changed prev (deps_of p o s)
              then session_effect p o else []) = y).
  { intro y. destruct (sessionData_changed _ _); auto.
    destruct (session_effect_cases p o) as [E | E]; rewrite E; reflexivity. }
  assert (D : forall y,
    writes y (if authToast_changed prev (deps_of p o s)
              then toast_effect p s else []) = y).
  { intro y. destruct (authToast_changed _ _); auto.
    destruct (toast_effect_cases p s) as [E | [t E]]; rewrite E; reflexivity. }
  rewrite A, D. reflexivity.
Qed.

Lemma effects_frame_on : forall prev p o s x,
  let x' := writes x (effects prev p o s) in
  email x' = email x /\ password x' = password x
  /\ loading x' = loading x /\ authToast x' = authToast x.
Proof.
  intros. subst x'. rewrite effects_writes_on.
  destruct (pathname_changed _ _), (view_changed _ _);
    try (destruct (pathname_effect_cases p) as [E | [v E]]; rewrite E);
    try (destruct (view_effect_cases s) as [[_ E'] | [_ E']]; rewrite E');
    repeat split; reflexivity.
Qed.

Lemma effects_isMagicLink_mono_on : forall prev p o s x,
  isMagicLink (writes x (effects prev p o s)) = true -> isMagicLink x = true.
Proof.
  intros prev p o s x. rewrite effects_writes_on.
  destruct (pathname_changed _ _), (view_changed _ _);
    try (destruct (pathname_effect_cases p) as [E | [v E]]; rewrite E);
    try (destruct (view_effect_cases s) as [[_ E'] | [_ E']]; rewrite E');
    simpl; auto; discriminate.
Qed.

Lemma effects_reset_isMagicLink_on : forall prev p o s x,
  view_changed prev (deps_of p o s) = true ->
  view s <> login ->
  isMagicLink (writes x (effects prev p o s)) = false.
Proof.
  intros prev p o s x Hc Hv. rewrite effects_writes_on, Hc.
  destruct (view_effect_cases s) as [[E _] | [_ E]]; [contradiction |].
  rewrite E.
  destruct (pathname_changed _ _);
    try (destruct (pathname_effect_cases p) as [E' | [v E']]; rewrite E');
    reflexivity.
Qed.

(** Calls made by the effects: navigation comes from the session
    reaction alone, and no effect talks to the backend. *)
Lemma effects_navigations : forall prev p o s,
  navigations (effects prev p o s) =
  if sessionData_changed prev (deps_of p o s)
  then navigations (session_effect p o) else [].
Proof.
  intros. unfold effects. cbv zeta. rewrite !navigations_app.
  assert (B : navigations (if pathname_changed prev (deps_of p o s)
                           then pathname_effect p else []) = []).
  { destruct (pathname_changed _ _); auto.
    destruct (pathname_effect_cases p) as [E | [v E]]; rewrite E; reflexivity. }
  assert (C : navigations (if view_changed prev (deps_of p o s)
                           then view_effect s else []) = []).
  { destruct (view_changed _ _); auto.
    destruct (view_effect_cases s) as [[_ E] | [_ E]]; rewrite E; reflexivity. }
  assert (D : navigations (if authToast_changed prev (deps_of p o s)
                           then toast_effect p s else []) = []).
  { destruct (authToast_changed _ _); auto.
    destruct (toast_effect_cases p s) as [E | [t E]]; rewrite E; reflexivity. }
  rewrite B, C, D, !app_nil_r.
  destruct (sessionData_changed _ _); reflexivity.
Qed.

Lemma effects_backend_calls : forall prev p o s,
  backend_calls (effects prev p o s) = [].
Proof.
  intros. unfold effects. cbv zeta. rewrite !backend_calls_app.
  destruct (sessionData_changed _ _), (pathname_changed _ _),
           (view_changed _ _), (authToast_changed _ _);
    try (destruct (session_effect_cases p o) as [E1 | E1]; rewrite E1);
    try (destruct (pathname_effect_cases p) as [E2 | [v E2]]; rewrite E2);
    try (destruct (view_effect_cases s) as [[_ E3] | [_ E3]]; rewrite E3);
    try (destruct (toast_effect_cases p s) as [E4 | [t E4]]; rewrite E4);
    reflexivity.
Qed.

(** ** Steps of the transition system *)

Lemma footer_click_cases : forall p s,
  let v := if AuthView_eqb (view s) signup then login else signup in
  let href := if AuthView_eqb (view s) signup then "/auth/login" else "/auth/signup" in
  click (footer_toggle p s) = [setView v]
  \/ click (footer_toggle p s) = [follow_href href]
  \/ click (footer_toggle p s) = [setView v; follow_href href].
Proof.
  intros p s. unfold footer_toggle, render_link, DefaultLink.
  destruct (Js.truthy_flag (disableRouting p)); simpl; auto.
  destruct (LinkComponent p) as [[[|]] |]; simpl; auto.
Qed.

Lemma footer_click_frame : forall p s,
  let s' := writes s (click (footer_toggle p s)) in
  email s' = email s /\ password s' = password s
  /\ loading s' = loading s /\ authToast s' = authToast s
  /\ isMagicLink s' = isMagicLink s.
Proof.
  intros p s.
  destruct (footer_click_cases p s) as [E | [E | E]]; rewrite E;
    repeat split; reflexivity.
Qed.

Lemma footer_click_calls : forall p s,
  navigations (click (footer_toggle p s)) = []
  /\ backend_calls (click (footer_toggle p s)) = [].
Proof.
  intros p s.
  destruct (footer_click_cases p s) as [E | [E | E]]; rewrite E;
    split; reflexivity.
Qed.

Lemma view_changed_eq : forall prev p o s,
  view_changed prev (deps_of p o s) =
  match prev with
  | Some d => negb (AuthView_eqb (dep_view d) (view s))
  | None => true
  end.
Proof. reflexivity. Qed.

Lemma settled_view : forall c,
  settled c = true -> view_changed (committed c) (current_deps c) = false.
Proof.
  unfold settled, effects_due. intros c H.
  apply negb_true_iff in H. repeat (apply orb_false_iff in H; destruct H as [H ?]).
  assumption.
Qed.

Lemma settled_sessionData : forall c,
  settled c = true -> sessionData_changed (committed c) (current_deps c) = false.
Proof.
  unfold settled, effects_due. intros c H.
  apply negb_true_iff in H. repeat (apply orb_false_iff in H; destruct H as [H ?]).
  assumption.
Qed.

Lemma settled_pathname : forall c,
  settled c = true -> pathname_changed (committed c) (current_deps c) = false.
Proof.
  unfold settled, effects_due. intros c H.
  apply negb_true_iff in H. repeat (apply orb_false_iff in H; destruct H as [H ?]).
  assumption.
Qed.

Section Steps.

Variable email_syntax_ok : string -> bool.

Local Abbreviation step := (handle email_syntax_ok).
Local Abbreviation steps := (run email_syntax_ok).
Local Abbreviation reach := (reachable email_syntax_ok).
Local Abbreviation submittable := (can_submit email_syntax_ok).

Lemma deliver_inv : forall c e c1,
  deliver email_syntax_ok c e = Some c1 -> deliver_shape email_syntax_ok c e c1.
Proof.
  intros c e c1 H. unfold deliver in H.
  destruct e; simpl; try discriminate H;
    try (inversion H; subst; auto; fail).
  - (* type_password *)
    destruct (el_disabled _) eqn:Hm; inversion H; auto.
  - (* submit *)
    destruct (can_submit _ _) eqn:Hc; inversion H; auto.
  - (* response *)
    destruct (outstanding c) as [| b rest] eqn:Ho; inversion H; eauto.
  - (* click_magic_link *)
    unfold press in H.
    destruct (btn_disabled _) eqn:Hd; inversion H; auto.
  - (* click_password_provider *)
    unfold press in H.
    destruct (btn_disabled _) eqn:Hd; inversion H; auto.
Qed.

Lemma handle_event : forall c e,
  e <> run_effects ->
  step c e =
  if settled c then deliver email_syntax_ok c e
  else option_map (late_effects c) (deliver email_syntax_ok c e).
Proof.
  intros c e He. destruct e; try (destruct (He eq_refl));
    unfold handle; destruct (settled c); reflexivity.
Qed.

Lemma handle_run_effects : forall c,
  step c run_effects = if settled c then None else Some (flush c).
Proof. reflexivity. Qed.

Lemma handle_settled : forall c e,
  settled c = true -> e <> run_effects ->
  step c e = deliver email_syntax_ok c e.
Proof. intros c e Hs He. rewrite (handle_event c e He), Hs. reflexivity. Qed.

Lemma handle_pending : forall c,
  settled c = false -> step c run_effects = Some (flush c).
Proof. intros c Hs. rewrite handle_run_effects, Hs. reflexivity. Qed.

(** An event on a settled render, then the effect pass it makes due. *)
Lemma run_event_then_effects : forall c e c1,
  settled c = true -> e <> run_effects ->
  deliver email_syntax_ok c e = Some c1 ->
  settled c1 = false ->
  steps c [e; run_effects] = Some (flush c1).
Proof.
  intros c e c1 Hs He Hd Hu. cbn [run].
  rewrite (handle_settled c e Hs He), Hd, (handle_pending c1 Hu). reflexivity.
Qed.

Lemma handle_inv : forall c e c',
  step c e = Some c' -> step_shape email_syntax_ok c e c'.
Proof.
  intros c e c' H.
  assert (G : e <> run_effects ->
              exists c1, deliver_shape email_syntax_ok c e c1
                         /\ c' = if settled c then c1 else late_effects c c1).
  { intro He. rewrite (handle_event c e He) in H.
    destruct (settled c).
    - exists c'. split; [apply deliver_inv; exact H | reflexivity].
    - destruct (deliver email_syntax_ok c e) as [c1 |] eqn:Hd;
        simpl in H; [| discriminate H].
      inversion H; subst. exists c1. split; [apply deliver_inv; exact Hd | auto]. }
  destruct e; try (apply G; discriminate).
  rewrite handle_run_effects in H. simpl.
  destruct (settled c); [discriminate H |]. inversion H. auto.
Qed.

(** What the handler's share leaves alone, and what it writes. *)
Lemma deliver_ops : forall c e c1,
  deliver_shape email_syntax_ok c e c1 ->
  state c1 = writes (state c) (handler_ops c e)
  /\ trace c1 = trace c ++ calls (handler_ops c e)
  /\ committed c1 = committed c.
Proof.
  intros c e c1 H.
  destruct e; simpl in H; try contradiction;
    repeat match type of H with
           | _ /\ _ => let H1 := fresh "Hg" in destruct H as [H1 H]
           | exists _, _ => let x := fresh "x" in destruct H as [x H]
           end;
    subst; simpl handler_ops; repeat split; simpl; auto using app_nil_r.
Qed.

(** What the late effect pass leaves alone, and what it writes. *)
Lemma late_effects_ops : forall c c1,
  state (late_effects c c1)
  = writes (state c1) (effects (committed c) (props c) (session c) (state c))
  /\ trace (late_effects c c1)
     = trace c1 ++ calls (effects (committed c) (props c) (session c) (state c))
  /\ outstanding (late_effects c c1) = outstanding c1
  /\ committed (late_effects c c1) = Some (current_deps c).
Proof. intros. repeat split. Qed.

Lemma can_submit_inv : forall s,
  submittable s = true -> loading s = false /\ email s <> "".
Proof.
  intros s H. unfold can_submit in H. simpl in H.
  apply andb_true_iff in H. destruct H as [Hl Hv].
  apply negb_true_iff in Hl. split; auto.
  intro E. unfold invalid, email_input in Hv. simpl in Hv.
  rewrite E in Hv. simpl in Hv. discriminate Hv.
Qed.

(** Induction over runs. *)
Lemma run_invariant : forall (I : Config -> Prop),
  (forall c e c', I c -> step c e = Some c' -> I c') ->
  forall es c c', I c -> steps c es = Some c' -> I c'.
Proof.
  intros I Hstep. induction es as [| e es IH]; intros c c' Hc Hr; cbn [run] in Hr.
  - inversion Hr; subst; assumption.
  - destruct (step c e) as [c1 |] eqn:E; try discriminate Hr.
    exact (IH c1 c' (Hstep c e c1 Hc E) Hr).
Qed.

Lemma reachable_invariant : forall (I : Config -> Prop),
  (forall p o, I (mount p o)) ->
  (forall c e c', I c -> step c e = Some c' -> I c') ->
  forall c, reach c -> I c.
Proof.
  intros I H0 Hstep c (p & o & es & Hr).
  eapply run_invariant; eauto.
Qed.

Lemma run_app : forall es1 es2 c,
  steps c (es1 ++ es2) =
  match steps c es1 with Some c1 => steps c1 es2 | None => None end.
Proof.
  induction es1 as [| e es1 IH]; intros es2 c; cbn [run app]; auto.
  destruct (step c e); auto.
Qed.

Lemma reachable_step : forall c e c',
  reach c -> step c e = Some c' -> reach c'.
Proof.
  intros c e c' (p & o & es & Hr) H.
  exists p, o, (es ++ [e]). rewrite run_app, Hr. cbn [run]. rewrite H. reflexivity.
Qed.

(** *** Magic-link mode against the view *)

Lemma deliver_mode : forall c e c1,
  deliver_shape email_syntax_ok c e c1 ->
  isMagicLink (state c1) = true ->
  isMagicLink (state c) = true \/ view (state c) = login.
Proof.
  intros c e c1 H Hm.
  destruct e; simpl in H; try contradiction;
    repeat match type of H with
           | _ /\ _ => let H1 := fresh "Hg" in destruct H as [H1 H]
           | exists _, _ => let x := fresh "x" in destruct H as [x H]
           end;
    subst;
    try (simpl in Hm; auto; fail).
  - left. simpl in Hm. destruct (error_message r); exact Hm.
  - right. simpl in Hg.
    apply orb_false_iff in Hg. destruct Hg as [Hd _].
    apply orb_false_iff in Hd. destruct Hd as [Hv _].
    apply negb_false_iff, AuthView_eqb_eq in Hv. exact Hv.
  - discriminate Hm.
  - left.
    destruct (footer_click_frame (props c) (state c)) as (_ & _ & _ & _ & E).
    rewrite <- E. exact Hm.
Qed.

(** A handler on a render whose view reaction has run. *)
Lemma mode_inv_handler : forall c c1,
  mode_inv c ->
  view_changed (committed c) (current_deps c) = false ->
  committed c1 = committed c ->
  (isMagicLink (state c1) = true ->
   isMagicLink (state c) = true \/ view (state c) = login) ->
  mode_inv c1.
Proof.
  intros c c1 I Hq Hc Hm Hm1 Hv1.
  assert (L : view (state c) = login).
  { destruct (Hm Hm1) as [Hon | L]; auto.
    destruct (AuthView_eqb (view (state c)) login) eqn:E.
    - apply AuthView_eqb_eq, E.
    - apply AuthView_eqb_neq in E. rewrite (I Hon E) in Hq. discriminate Hq. }
  unfold current_deps in *. rewrite view_changed_eq in *. rewrite Hc.
  destruct (committed c) as [d |]; auto.
  apply negb_false_iff, AuthView_eqb_eq in Hq.
  apply negb_true_iff, AuthView_eqb_neq. congruence.
Qed.

(** The effects of a render running after a handler. *)
Lemma mode_inv_late : forall c c1,
  mode_inv c ->
  (isMagicLink (state c1) = true ->
   isMagicLink (state c) = true \/ view (state c) = login) ->
  mode_inv (late_effects c c1).
Proof.
  intros c c1 I Hm Hm' Hv'.
  change (state (late_effects c c1))
    with (writes (state c1)
            (effects (committed c) (props c) (session c) (state c))) in Hm', Hv'.
  change (view_changed (committed (late_effects c c1))
            (current_deps (late_effects c c1)))
    with (negb (AuthView_eqb (view (state c))
                  (view (writes (state c1)
                           (effects (committed c) (props c) (session c)
                              (state c)))))).
  apply negb_true_iff, AuthView_eqb_neq. intro Eq.
  rewrite <- Eq in Hv'.
  pose proof (effects_isMagicLink_mono_on _ _ _ _ _ Hm') as Hm1.
  destruct (Hm Hm1) as [Hon | L]; [| contradiction].
  pose proof (I Hon Hv') as Hc.
  rewrite (effects_reset_isMagicLink_on _ _ _ _ _ Hc Hv') in Hm'.
  discriminate Hm'.
Qed.

Lemma mode_inv_step : forall c e c',
  mode_inv c -> step c e = Some c' -> mode_inv c'.
Proof.
  intros c e c' I H. apply handle_inv in H.
  assert (G : (exists c1, deliver_shape email_syntax_ok c e c1
                          /\ c' = if settled c then c1 else late_effects c c1) ->
              mode_inv c').
  { intros (c1 & Hd & ->).
    pose proof (deliver_mode _ _ _ Hd) as Hm.
    destruct (deliver_ops _ _ _ Hd) as (_ & _ & Hc).
    destruct (settled c) eqn:Hs.
    - apply (mode_inv_handler c c1 I (settled_view _ Hs) Hc Hm).
    - apply (mode_inv_late c c1 I Hm). }
  destruct e; try (apply G; exact H).
  (* run_effects *)
  simpl in H. destruct H as [Hs ->]. unfold mode_inv, flush, current_deps. simpl.
  intros Hm Hv.
  apply negb_true_iff, AuthView_eqb_neq. intro E.
  rewrite <- E in Hv.
  pose proof (effects_isMagicLink_mono _ _ _ _ Hm) as Hm0.
  pose proof (I Hm0 Hv) as Hc.
  rewrite (effects_reset_isMagicLink _ _ _ _ Hc Hv) in Hm. discriminate Hm.
Qed.

Lemma mode_inv_reachable : forall c, reach c -> mode_inv c.
Proof.
  apply reachable_invariant.
  - intros p o Hm Hv. reflexivity.
  - apply mode_inv_step.
Qed.

(** *** The in-flight flag against the outstanding request *)

Lemma flight_inv_frame : forall c c',
  outstanding c' = outstanding c ->
  loading (state c') = loading (state c) ->
  authToast (state c') = authToast (state c) ->
  flight_inv c -> flight_inv c'.
Proof.
  unfold flight_inv. intros c c' Ho Hl Ht. rewrite Ho, Hl, Ht. auto.
Qed.

Lemma flight_inv_deliver : forall c e c1,
  flight_inv c ->
  deliver_shape email_syntax_ok c e c1 ->
  flight_inv c1.
Proof.
  intros c e c1 I H.
  destruct e; simpl in H; try contradiction.
  - subst. revert I. apply flight_inv_frame; reflexivity.
  - subst. revert I. apply flight_inv_frame; reflexivity.
  - subst. revert I. apply flight_inv_frame; reflexivity.
  - destruct H as (_ & ->). revert I. apply flight_inv_frame; reflexivity.
  - destruct H as (Hc & ->). apply can_submit_inv in Hc.
    destruct Hc as [Hl _]. right.
    destruct I as [[Ho _] | (b & _ & Hl' & _)]; [| congruence].
    simpl. rewrite Ho. eexists. repeat split.
  - destruct H as (b & rest & Ho & ->). left.
    destruct I as [[Ho' _] | (b' & Ho' & _)]; [congruence |].
    rewrite Ho' in Ho. inversion Ho; subst. simpl. split; auto.
    unfold onSubmit_resume. destruct (error_message r); reflexivity.
  - destruct H as (_ & ->). revert I. apply flight_inv_frame; reflexivity.
  - destruct H as (_ & ->). revert I. apply flight_inv_frame; reflexivity.
  - subst. revert I.
    destruct (footer_click_frame (props c) (state c)) as (_ & _ & Hl & Ht & _).
    apply flight_inv_frame; auto.
  - subst. revert I. apply flight_inv_frame; reflexivity.
Qed.

Lemma flight_inv_late : forall c c1,
  flight_inv c1 ->
  flight_inv (late_effects c c1).
Proof.
  intros c c1.
  destruct (effects_frame_on (committed c) (props c) (session c) (state c)
              (state c1)) as (_ & _ & Hl & Ht).
  apply flight_inv_frame; auto.
Qed.

Lemma flight_inv_step : forall c e c',
  flight_inv c -> step c e = Some c' ->
  flight_inv c'.
Proof.
  intros c e c' I H. apply handle_inv in H.
  assert (G : (exists c1, deliver_shape email_syntax_ok c e c1
                          /\ c' = if settled c then c1 else late_effects c c1) ->
              flight_inv c').
  { intros (c1 & Hd & ->).
    pose proof (flight_inv_deliver _ _ _ I Hd) as I1.
    destruct (settled c); [exact I1 | apply flight_inv_late, I1]. }
  destruct e; try (apply G; exact H).
  simpl in H. destruct H as [_ ->]. revert I.
  destruct (effects_frame (committed c) (props c) (session c) (state c))
    as (_ & _ & Hl & Ht).
  apply flight_inv_frame; auto.
Qed.

Lemma flight_inv_reachable : forall c, reach c -> flight_inv c.
Proof.
  apply reachable_invariant.
  - intros p o. left. split; reflexivity.
  - apply flight_inv_step.
Qed.

(** Every configuration settles: after at most three effect runs no
    effect is due, so the events of the user and of the host are never
    blocked for good. *)
Lemma option_eqb_refl : forall A (eqb : A -> A -> bool),
  (forall x, eqb x x = true) -> forall o, option_eqb eqb o o = true.
Proof. intros A eqb H [x |]; simpl; auto. Qed.

Lemma AuthToastOptions_eqb_refl : forall t, AuthToastOptions_eqb t t = true.
Proof.
  intros [d v a]. unfold AuthToastOptions_eqb. simpl.
  rewrite String.eqb_refl. destruct v; simpl;
    apply option_eqb_refl; intro x; apply String.eqb_refl.
Qed.

Lemma flush_settles_outside_view : forall c,
  sessionData_changed (committed (flush c)) (current_deps (flush c)) = false
  /\ pathname_changed (committed (flush c)) (current_deps (flush c)) = false
  /\ authToast_changed (committed (flush c)) (current_deps (flush c)) = false.
Proof.
  intro c.
  destruct (effects_frame (committed c) (props c) (session c) (state c))
    as (_ & _ & _ & Ht).
  unfold sessionData_changed, pathname_changed, authToast_changed, changed.
  unfold flush, current_deps. simpl. rewrite Ht.
  rewrite !option_eqb_refl; auto using Nat.eqb_refl, String.eqb_refl,
    AuthToastOptions_eqb_refl.
Qed.

Lemma flush_view_when_path_quiet : forall c,
  pathname_changed (committed c) (current_deps c) = false ->
  view (state (flush c)) = view (state c).
Proof.
  intros c H. unfold flush. simpl. unfold current_deps in H.
  rewrite effects_writes, H.
  destruct (view_changed _ _); auto.
  destruct (view_effect_cases (state c)) as [[_ E] | [_ E]]; rewrite E;
    reflexivity.
Qed.

Lemma settled_flush_twice : forall c, settled (flush (flush c)) = true.
Proof.
  intro c. unfold settled, effects_due. apply negb_true_iff.
  destruct (flush_settles_outside_view (flush c)) as (A & B & D).
  rewrite A, B, D. simpl. rewrite orb_false_r.
  destruct (flush_settles_outside_view c) as (_ & B0 & _).
  change (committed (flush (flush c))) with (Some (current_deps (flush c))).
  unfold view_changed, changed, current_deps. simpl dep_view.
  pose proof (flush_view_when_path_quiet _ B0) as E. simpl in E.
  unfold current_deps in E. rewrite E. apply negb_false_iff, AuthView_eqb_refl.
Qed.

(** *** Calls made by a step *)

(** From a reachable configuration a settled one is reached by running
    the effects that are due. *)
Lemma reachable_settles : forall c,
  reach c -> exists c', reach c' /\ settled c' = true.
Proof.
  intros c Hr.
  destruct (settled c) eqn:E0; [eauto |].
  assert (R1 : reach (flush c)).
  { apply (reachable_step c run_effects); auto.
    unfold handle. rewrite E0. reflexivity. }
  destruct (settled (flush c)) eqn:E1; [eauto |].
  exists (flush (flush c)). split; [| apply settled_flush_twice].
  apply (reachable_step (flush c) run_effects); auto.
  unfold handle. rewrite E1. reflexivity.
Qed.

Lemma onSubmit_resume_cases : forall r,
  (error_message r = None /\ onSubmit_resume r = [setLoading false])
  \/ (exists m, error_message r = Some m
       /\ onSubmit_resume r =
          [ setLoading false;
            setAuthToast (Some {| description := m; variant := destructive;
                                  action := None |}) ]).
Proof.
  intro r. unfold onSubmit_resume.
  destruct (error_message r) as [m |]; eauto.
Qed.

Lemma step_trace : forall c e c',
  step c e = Some c' ->
  trace c' = trace c ++ calls (step_ops c e)
  /\ state c' = writes (state c) (step_ops c e).
Proof.
  intros c e c' H. apply handle_inv in H.
  assert (G : (exists c1, deliver_shape email_syntax_ok c e c1
                          /\ c' = if settled c then c1 else late_effects c c1) ->
              trace c' = trace c ++ calls (step_ops c e)
              /\ state c' = writes (state c) (step_ops c e)).
  { intros (c1 & Hd & ->).
    destruct (deliver_ops _ _ _ Hd) as (Hst & Htr & _).
    unfold step_ops, pending_ops. destruct (settled c).
    - rewrite app_nil_r. auto.
    - destruct (late_effects_ops c c1) as (Ls & Lt & _).
      rewrite Ls, Lt, Hst, Htr, calls_app, writes_app, app_assoc. auto. }
  destruct e; try (apply G; exact H).
  simpl in H. destruct H as [Hs ->].
  unfold step_ops, pending_ops. rewrite Hs. simpl. auto.
Qed.

Lemma handler_navigations : forall c e, navigations (handler_ops c e) = [].
Proof.
  intros c e. destruct e; simpl handler_ops; try reflexivity.
  - destruct (onSubmit_resume_cases r) as [[_ E] | (m & _ & E)]; rewrite E;
      reflexivity.
  - apply footer_click_calls.
Qed.

Lemma handler_backend_calls : forall c e,
  backend_calls (handler_ops c e) =
  match e with
  | submit =>
      [call_backend (signIn_email (email (state c)) (password (state c)))]
  | _ => []
  end.
Proof.
  intros c e. destruct e; simpl handler_ops; try reflexivity.
  - destruct (onSubmit_resume_cases r) as [[_ E] | (m & _ & E)]; rewrite E;
      reflexivity.
  - apply footer_click_calls.
Qed.

Lemma pending_backend_calls : forall c, backend_calls (pending_ops c) = [].
Proof.
  intro c. unfold pending_ops. destruct (settled c); auto.
  apply effects_backend_calls.
Qed.

Lemma pending_navigations : forall c,
  navigations (pending_ops c) =
  if sessionData_changed (committed c) (current_deps c)
  then navigations (session_effect (props c) (session c))
  else [].
Proof.
  intro c. unfold pending_ops. destruct (settled c) eqn:Hs.
  - rewrite (settled_sessionData _ Hs). reflexivity.
  - apply effects_navigations.
Qed.

(** The navigation of a step: that of the session reaction, when the
    step runs it. *)
Lemma step_navigations : forall c e c',
  step c e = Some c' ->
  navigations (trace c') =
  navigations (trace c)
  ++ (if sessionData_changed (committed c) (current_deps c)
      then navigations (session_effect (props c) (session c))
      else []).
Proof.
  intros c e c' H. destruct (step_trace _ _ _ H) as [Ht _].
  rewrite Ht, navigations_app, navigations_calls. f_equal.
  unfold step_ops.
  rewrite navigations_app, handler_navigations, pending_navigations.
  reflexivity.
Qed.

Lemma step_backend_calls : forall c e c',
  step c e = Some c' ->
  backend_calls (trace c') =
  backend_calls (trace c)
  ++ match e with
     | submit =>
         [call_backend (signIn_email (email (state c)) (password (state c)))]
     | _ => []
     end.
Proof.
  intros c e c' H. destruct (step_trace _ _ _ H) as [Ht _].
  rewrite Ht, backend_calls_app, backend_calls_calls. f_equal.
  unfold step_ops.
  rewrite backend_calls_app, handler_backend_calls, pending_backend_calls.
  apply app_nil_r.
Qed.

(** While a request is in flight, a step that is not the arrival of the
    response leaves the flag up and the outstanding request in place. *)
Lemma step_in_flight : forall c e c',
  loading (state c) = true ->
  (forall r, e <> response r) ->
  step c e = Some c' ->
  e <> submit /\ loading (state c') = true /\ outstanding c' = outstanding c.
Proof.
  intros c e c' Hl Hne H. apply handle_inv in H.
  assert (G : (exists c1, deliver_shape email_syntax_ok c e c1
                          /\ c' = if settled c then c1 else late_effects c c1) ->
              e <> submit /\ loading (state c') = true
              /\ outstanding c' = outstanding c).
  { intros (c1 & Hd & ->).
    assert (D : e <> submit /\ loading (state c1) = true
                /\ outstanding c1 = outstanding c).
    { destruct e; simpl in Hd; try contradiction;
        try (subst; repeat split; auto; discriminate).
      - destruct Hd as (_ & ->). repeat split; auto; discriminate.
      - destruct Hd as (Hc & _). apply can_submit_inv in Hc.
        destruct Hc as [Hc _]. congruence.
      - destruct (Hne r eq_refl).
      - destruct Hd as (_ & ->). repeat split; auto; discriminate.
      - destruct Hd as (_ & ->). repeat split; auto; discriminate.
      - subst.
        destruct (footer_click_frame (props c) (state c)) as (_ & _ & El & _).
        repeat split; try discriminate. simpl. rewrite El. exact Hl. }
    destruct D as (D1 & D2 & D3). destruct (settled c); auto.
    destruct (effects_frame_on (committed c) (props c) (session c) (state c)
                (state c1)) as (_ & _ & El & _).
    repeat split; auto.
    change (state (late_effects c c1))
      with (writes (state c1)
              (effects (committed c) (props c) (session c) (state c))).
    rewrite El. exact D2. }
  destruct e; try (apply G; exact H).
  simpl in H. destruct H as [_ ->].
  destruct (effects_frame (committed c) (props c) (session c) (state c))
    as (_ & _ & El & _).
  repeat split; try discriminate. simpl. rewrite El. exact Hl.
Qed.

Lemma option_string_eqb_eq : forall a b : option string,
  option_eqb String.eqb a b = true <-> a = b.
Proof.
  intros [x |] [y |]; simpl; split; intro H; try congruence.
  - apply String.eqb_eq in H. congruence.
  - inversion H. apply String.eqb_refl.
Qed.

Lemma option_nat_eqb_eq : forall a b : option nat,
  option_eqb Nat.eqb a b = true <-> a = b.
Proof.
  intros [x |] [y |]; simpl; split; intro H; try congruence.
  - apply Nat.eqb_eq in H. congruence.
  - inversion H. apply Nat.eqb_refl.
Qed.

(** ** The claims *)

(** C1.  When the final segment of the host path (the text after its last
    '/') is exactly the name of one of the five views, the path reaction
    is the single write of that view to the view cell; when the final
    segment is anything else, or no path is given, the reaction does
    nothing and the state, the active view included, is as before.  The
    reaction is a total function: there is no input on which it fails.
    It is what a change of the host path leads to: after the host
    renders with a different path and the effects have run, the state is
    the one the path reaction produces. *)
Theorem C1_path_reaction : forall (p : AuthCardProps) (s : State),
  (forall path v,
      resolved_pathname p = Some path ->
      Js.after_last_slash path = view_name v ->
      pathname_effect p = [setView v]
      /\ view (writes s (pathname_effect p)) = v)
  /\ (forall path,
      resolved_pathname p = Some path ->
      (forall v, Js.after_last_slash path <> view_name v) ->
      pathname_effect p = [] /\ writes s (pathname_effect p) = s)
  /\ (resolved_pathname p = None ->
      pathname_effect p = [] /\ writes s (pathname_effect p) = s)
  /\ (forall c,
      settled c = true -> state c = s ->
      resolved_pathname p <> resolved_pathname (props c) ->
      exists c2,
        steps c [host_render p; run_effects] = Some c2
        /\ state c2 = writes s (pathname_effect p)).
Proof.
  intros p s. split; [| split; [| split]].
  - intros path v Hp Hv. rewrite pathname_effect_eq, Hp.
    apply includes_view_Some in Hv. rewrite Hv. split; reflexivity.
  - intros path Hp Hv. rewrite pathname_effect_eq, Hp.
    apply includes_view_None in Hv. rewrite Hv. split; reflexivity.
  - intros Hp. rewrite pathname_effect_eq, Hp. split; reflexivity.
  - intros c Hs <- Hne.
    assert (Hd : pathname_changed (committed c) (current_deps (with_props c p))
                 = true).
    { pose proof (settled_pathname _ Hs) as H0.
      unfold pathname_changed, changed, current_deps in *. simpl in *.
      destruct (committed c) as [d |]; auto.
      apply negb_false_iff, option_string_eqb_eq in H0.
      apply negb_true_iff. rewrite H0.
      destruct (option_eqb String.eqb _ _) eqn:E; auto.
      apply option_string_eqb_eq in E. congruence. }
    assert (Hu : settled (with_props c p) = false).
    { unfold settled, effects_due. simpl committed. rewrite Hd.
      destruct (sessionData_changed _ _); reflexivity. }
    exists (flush (with_props c p)). split.
    + apply run_event_then_effects;
        [exact Hs | discriminate | reflexivity | exact Hu].
    + unfold flush. cbn [state with_props props session committed].
      rewrite effects_writes.
      unfold current_deps in Hd. cbn [with_props props session state] in Hd.
      rewrite Hd.
      pose proof (settled_view _ Hs) as Hv. unfold current_deps in Hv.
      rewrite view_changed_eq in *. rewrite Hv. reflexivity.
Qed.

(** C2 (as the code has it).  In every reachable configuration in which
    the view reaction is not waiting to run, that is once it has run for
    the view that is rendered, magic-link mode is off whenever the active
    view is not login.  This holds whatever else is still pending and
    however clicks, host renders and responses interleave with the
    effect passes.  The reset is done by the view reaction, so the
    render committed just before that reaction runs can still show
    magic-link mode on another view. *)
Theorem C2_magic_link_only_on_login_after_view_reaction : forall c,
  reach c ->
  view_changed (committed c) (current_deps c) = false ->
  view (state c) <> login -> isMagicLink (state c) = false.
Proof.
  intros c Hr Hq Hv.
  destruct (isMagicLink (state c)) eqn:Hm; auto.
  pose proof (mode_inv_reachable c Hr Hm Hv) as Hc.
  rewrite Hq in Hc. discriminate Hc.
Qed.

(** C3.  The session reaction calls the navigation function with "/"
    when the observation is present and its user is not flagged
    anonymous, and calls nothing when the observation is pending or
    absent or its user is flagged anonymous.  A step navigates only by
    running that reaction (in an effect pass of its own or right after a
    handler), which is due only when the session object differs from the
    one of the previous effect run: replacing the observation by a
    different one makes the reaction run exactly once, after which it is
    not due again. *)
Theorem C3_session_navigation :
  (forall p d u,
      user d = Some u -> Js.truthy (isAnonymous u) = false ->
      session_effect p (present d) = [call_navigate (resolved_navigate p) "/"])
  /\ (forall p o,
      o = pending \/ o = absent
      \/ (exists d u, o = present d /\ user d = Some u
                      /\ Js.truthy (isAnonymous u) = true) ->
      session_effect p o = [])
  /\ (forall c e c',
      step c e = Some c' ->
      navigations (trace c') =
      navigations (trace c)
      ++ (if sessionData_changed (committed c) (current_deps c)
          then navigations (session_effect (props c) (session c))
          else [])
      /\ (sessionData_changed (committed c) (current_deps c) = true ->
          e = run_effects \/ settled c = false))
  /\ (forall c o,
      settled c = true ->
      option_map ref (sessionData o) <> option_map ref (sessionData (session c)) ->
      exists c2,
        steps c [session_update o; run_effects] = Some c2
        /\ navigations (trace c2) =
           navigations (trace c) ++ navigations (session_effect (props c) o)
        /\ sessionData_changed (committed c2) (current_deps c2) = false).
Proof.
  split; [| split; [| split]].
  - intros p d u Hu Ha. unfold session_effect, user_isAnonymous. simpl.
    rewrite Hu, Ha. reflexivity.
  - intros p o [-> | [-> | (d & u & -> & Hu & Ha)]]; auto.
    unfold session_effect, user_isAnonymous. simpl. rewrite Hu, Ha. reflexivity.
  - intros c e c' H. split; [apply (step_navigations c e c' H) |].
    intro Hd. right. destruct (settled c) eqn:Hs; auto.
    rewrite (settled_sessionData _ Hs) in Hd. discriminate Hd.
  - intros c o Hs Hne.
    assert (Hd : sessionData_changed (committed c) (current_deps (with_session c o))
                 = true).
    { pose proof (settled_sessionData _ Hs) as H0.
      unfold sessionData_changed, changed, current_deps in *. simpl in *.
      destruct (committed c) as [d |]; auto.
      apply negb_false_iff, option_nat_eqb_eq in H0.
      apply negb_true_iff. rewrite H0.
      destruct (option_eqb Nat.eqb _ _) eqn:E; auto.
      apply option_nat_eqb_eq in E. congruence. }
    assert (Hu : settled (with_session c o) = false).
    { unfold settled, effects_due. simpl committed.
      rewrite Hd. reflexivity. }
    exists (flush (with_session c o)). split; [| split].
    + apply run_event_then_effects;
        [exact Hs | discriminate | reflexivity | exact Hu].
    + unfold flush. cbn [trace with_session props session state committed].
      rewrite navigations_app, navigations_calls, effects_navigations.
      unfold current_deps in Hd. cbn [with_session props session state] in Hd.
      rewrite Hd. reflexivity.
    + apply flush_settles_outside_view.
Qed.

(** C4.  When the response to a submission arrives, the in-flight flag
    is cleared first: along the statements run on arrival, any state in
    which the notification differs from what it was at arrival already
    has the flag cleared.  Afterwards the flag is down, and the
    notification is the backend's message, verbatim and with error
    severity, when the response carries an error with a non-empty
    message; otherwise the notification is null, as it was while the
    request was in flight. *)
Theorem C4_response_handling :
  (forall s r s',
      In s' (states_along s (onSubmit_resume r)) ->
      authToast s' <> authToast s -> loading s' = false)
  /\ (forall c r,
      reach c -> settled c = true -> outstanding c <> [] ->
      exists c',
        step c (response r) = Some c'
        /\ loading (state c') = false
        /\ authToast (state c') =
           match error_message r with
           | Some m => Some {| description := m; variant := destructive;
                               action := None |}
           | None => None
           end)
  /\ (forall r m,
      error_message r = Some m <->
      exists e, error r = Some e /\ message e = Some m /\ m <> "").
Proof.
  split; [| split].
  - intros s r s' Hin Hne.
    destruct (onSubmit_resume_cases r) as [[_ E] | (m & _ & E)];
      rewrite E in Hin; simpl in Hin;
      repeat (destruct Hin as [<- | Hin]; [ try (destruct (Hne eq_refl)); auto |]);
      destruct Hin.
  - intros c r Hr Hs Ho.
    destruct (flight_inv_reachable c Hr)
      as [[Ho' _] | (b & Ho' & Hl & Ht)]; [contradiction |].
    exists (with_outstanding (perform c (onSubmit_resume r)) []).
    split; [| split].
    + rewrite handle_settled by (auto; discriminate).
      cbn [deliver]. rewrite Ho'. reflexivity.
    + destruct (onSubmit_resume_cases r) as [[_ E] | (m & _ & E)]; rewrite E;
        reflexivity.
    + destruct (onSubmit_resume_cases r) as [[Em E] | (m & Em & E)];
        rewrite E, Em; simpl; auto.
  - intros r m. unfold error_message. split.
    + destruct (error r) as [e |]; try discriminate.
      destruct (message e) as [m' |] eqn:Em; simpl; try discriminate.
      destruct (String.eqb_spec m' ""); simpl; try discriminate.
      intro H. inversion H; subst. exists e. auto.
    + intros (e & -> & Em & Hne). rewrite Em. simpl.
      destruct (String.eqb_spec m ""); simpl; congruence.
Qed.

(** C5.  [onSubmit] clears the notification and raises the in-flight
    flag before it issues the backend request: at the statement that
    issues the request both writes have been made.  A submit step leaves
    the notification null and a request outstanding, and in every
    reachable configuration with a request outstanding, that is from the
    start of a submission until its response arrives, the notification
    is null and the flag is up. *)
Theorem C5_submit_clears_notification :
  (forall s pre b post,
      onSubmit_start s = pre ++ call_backend b :: post ->
      authToast (writes s pre) = None /\ loading (writes s pre) = true)
  /\ (forall c c',
      step c submit = Some c' ->
      authToast (state c') = None /\ loading (state c') = true
      /\ outstanding c' <> [])
  /\ (forall c,
      reach c -> outstanding c <> [] ->
      authToast (state c) = None /\ loading (state c) = true).
Proof.
  split; [| split].
  - intros s pre b post H. unfold onSubmit_start in H.
    destruct pre as [| a1 [| a2 [| a3 [| a4 pre]]]]; simpl in H;
      inversion H; subst; auto.
    destruct pre; discriminate.
  - intros c c' H. apply handle_inv in H.
    destruct H as (c1 & (_ & ->) & ->).
    assert (N : outstanding c
                ++ [signIn_email (email (state c)) (password (state c))] <> []).
    { intro E. apply app_eq_nil in E. destruct E as [_ E]. discriminate E. }
    destruct (settled c).
    + simpl. repeat split. exact N.
    + destruct (effects_frame_on (committed c) (props c) (session c) (state c)
                  (state (with_outstanding
                            (perform c (onSubmit_start (state c)))
                            (outstanding c
                             ++ [signIn_email (email (state c))
                                   (password (state c))]))))
        as (_ & _ & El & Et).
      cbv zeta in El, Et.
      change (state (late_effects c ?x))
        with (writes (state x)
                (effects (committed c) (props c) (session c) (state c))).
      repeat split; [rewrite Et | rewrite El | exact N]; reflexivity.
  - intros c Hr Ho.
    destruct (flight_inv_reachable c Hr)
      as [[Ho' _] | (b & _ & Hl & Ht)]; [contradiction | auto].
Qed.

(** C6.  While the in-flight flag is up the submit control is disabled
    and a submit cannot happen; over any sequence of steps that does not
    contain the arrival of the response, no backend call is added, the
    flag stays up and the outstanding request stays in place.  In a
    reachable configuration the flag is up exactly when one request is
    outstanding. *)
Theorem C6_no_second_submit_in_flight : forall c,
  loading (state c) = true ->
  btn_disabled (submit_button (state c)) = true
  /\ step c submit = None
  /\ (forall es c',
      Forall (fun e => forall r, e <> response r) es ->
      steps c es = Some c' ->
      backend_calls (trace c') = backend_calls (trace c)
      /\ loading (state c') = true
      /\ outstanding c' = outstanding c)
  /\ (reach c -> exists b, outstanding c = [b]).
Proof.
  intros c Hl. split; [| split; [| split]].
  - exact Hl.
  - rewrite handle_event by discriminate.
    unfold deliver, can_submit. simpl. rewrite Hl.
    destruct (settled c); reflexivity.
  - intros es. revert c Hl.
    induction es as [| e es IH]; intros c Hl c' Hall Hrun; cbn [run] in Hrun.
    + inversion Hrun; subst. auto.
    + inversion Hall as [| ? ? He Hes]; subst.
      destruct (step c e) as [c1 |] eqn:E; try discriminate Hrun.
      destruct (step_in_flight _ _ _ Hl He E) as (Hns & Hl1 & Ho1).
      destruct (IH c1 Hl1 c' Hes Hrun) as (Hb & Hl' & Ho').
      rewrite Hb, Hl', Ho', Ho1, (step_backend_calls _ _ _ E).
      repeat split. destruct e; try (apply app_nil_r). destruct (Hns eq_refl).
  - intro Hr.
    destruct (flight_inv_reachable c Hr)
      as [[_ Hl'] | (b & Ho & _)]; [congruence | eauto].
Qed.

(** C7 (as the code has it).  With routing disabled the footer toggle is
    a button whose click swaps the view directly, login to signup and
    signup to login, and calls nothing.  With routing enabled the toggle
    is rendered as a link whose target is fixed per direction,
    "/auth/login" from signup and "/auth/signup" otherwise; with the
    default link component a click only follows that link.  In neither
    case does a click call the navigation function. *)
Theorem C7_footer_toggle : forall (p : AuthCardProps) (s : State),
  let v := if AuthView_eqb (view s) signup then login else signup in
  let href := if AuthView_eqb (view s) signup then "/auth/login" else "/auth/signup" in
  (Js.truthy_flag (disableRouting p) = true ->
     click (footer_toggle p s) = [setView v]
     /\ (view s = login -> view (writes s (click (footer_toggle p s))) = signup)
     /\ (view s = signup -> view (writes s (click (footer_toggle p s))) = login)
     /\ calls (click (footer_toggle p s)) = [])
  /\ (Js.truthy_flag (disableRouting p) = false ->
     (exists h, footer_toggle p s = dom_anchor href h)
     /\ (LinkComponent p = None ->
         click (footer_toggle p s) = [follow_href href]))
  /\ navigations (click (footer_toggle p s)) = [].
Proof.
  intros p s v href. split; [| split].
  - intro Hd. unfold footer_toggle. rewrite Hd. simpl. fold v.
    repeat split; subst v; intros ->; reflexivity.
  - intro Hd. unfold footer_toggle, render_link, DefaultLink. rewrite Hd. simpl.
    fold href. split.
    + destruct (LinkComponent p) as [hl |]; eauto.
    + intros ->. reflexivity.
  - apply footer_click_calls.
Qed.

(** C8 (as the code has it).  Magic-link mode plays no part in what
    [onSubmit] does: two states with the same credentials run the same
    statements, and in magic-link mode too the one backend call is the
    password sign-in with the current email and password. *)
Theorem C8_magic_link_submits_password_sign_in :
  (forall s s',
      email s = email s' -> password s = password s' ->
      onSubmit_start s = onSubmit_start s')
  /\ (forall s,
      isMagicLink s = true ->
      backend_calls (onSubmit_start s) =
      [call_backend (signIn_email (email s) (password s))]).
Proof.
  split.
  - intros s s' He Hp. unfold onSubmit_start. rewrite He, Hp. reflexivity.
  - intros s _. reflexivity.
Qed.

(** C9 (as the code has it).  The email field is marked required in
    every render; the password field is never marked required and is
    disabled exactly in magic-link mode.  Whether the form can be
    submitted is decided by the in-flight flag and the email value alone:
    a submit with an empty email is stopped before [onSubmit] runs, and
    the password value plays no part. *)
Theorem C9_required_marking : forall s,
  el_required (email_input s) = true
  /\ el_required (password_input s) = false
  /\ el_disabled (password_input s) = isMagicLink s
  /\ submittable s =
     negb (loading s) && negb (String.eqb (email s) "")
     && email_syntax_ok (email s)
  /\ (email s = "" -> submittable s = false)
  /\ (forall c, state c = s -> email s = "" -> step c submit = None).
Proof.
  intro s.
  assert (E : submittable s =
              negb (loading s) && negb (String.eqb (email s) "")
              && email_syntax_ok (email s)).
  { unfold can_submit, invalid. simpl.
    destruct (loading s), (isMagicLink s), (String.eqb (email s) ""),
             (email_syntax_ok (email s)); reflexivity. }
  repeat split; auto.
  - intro He. rewrite E, He. destruct (loading s); reflexivity.
  - intros c <- He. rewrite handle_event by discriminate.
    cbn [deliver]. rewrite E, He.
    destruct (settled c), (loading (state c)); reflexivity.
Qed.

(** C10.  Whatever the active view, a submit step issues exactly one
    backend call, the password sign-in with the email and password of
    the state it is taken in (on a settled render it is the only call
    of the step; otherwise the pending effects may add calls of their
    own, never to the backend); and every backend call in the trace of
    a reachable configuration is such a sign-in: no password-reset,
    magic-link, sign-up or sign-out operation is ever issued. *)
Theorem C10_single_backend_operation :
  (forall c c',
      handle email_syntax_ok c submit = Some c' ->
      backend_calls (trace c') =
      backend_calls (trace c)
      ++ [call_backend (signIn_email (email (state c)) (password (state c)))]
      /\ (settled c = true ->
          trace c' =
          trace c
          ++ [call_backend (signIn_email (email (state c)) (password (state c)))]))
  /\ (forall c b,
      reachable email_syntax_ok c -> In (call_backend b) (trace c) ->
      exists em pw, b = signIn_email em pw).
Proof.
  split.
  - intros c c' H. split; [apply (step_backend_calls c submit c' H) |].
    intro Hs. destruct (step_trace _ _ _ H) as [Ht _].
    rewrite Ht. unfold step_ops, pending_ops. rewrite Hs, app_nil_r.
    reflexivity.
  - intros c b Hr Hin.
    assert (I : forall x, In x (backend_calls (trace c)) ->
                exists em pw, x = call_backend (signIn_email em pw)).
    { clear Hin. revert c Hr.
      apply (reachable_invariant
               (fun c => forall x, In x (backend_calls (trace c)) ->
                         exists em pw, x = call_backend (signIn_email em pw))).
      - intros p o x [].
      - intros c0 e c1 I H x Hx.
        rewrite (step_backend_calls _ _ _ H) in Hx.
        apply in_app_or in Hx. destruct Hx as [Hx | Hx]; auto.
        destruct e; simpl in Hx; try contradiction.
        destruct Hx as [<- | []]. eauto. }
    destruct (I (call_backend b)) as (em & pw & E).
    + apply filter_In. split; auto.
    + inversion E. eauto.
Qed.

End Steps.

(** ** The claims on concrete inputs *)

Lemma C1_path_reaction_witness :
  (pathname_effect (sample_props None (Some "/auth/signup") None None None)
     = [setView signup]
   /\ view (writes (initial_state plain_props)
              (pathname_effect
                 (sample_props None (Some "/auth/signup") None None None)))
      = signup)
  /\ (pathname_effect (sample_props None (Some "/auth/signup?next=1") None None None)
        = []
      /\ writes (initial_state plain_props)
           (pathname_effect
              (sample_props None (Some "/auth/signup?next=1") None None None))
         = initial_state plain_props)
  /\ (pathname_effect plain_props = []
      /\ writes (initial_state plain_props) (pathname_effect plain_props)
         = initial_state plain_props)
  /\ (exists c2,
        run has_at (after plain_props [run_effects])
          [host_render (sample_props None (Some "/auth/signup") None None None);
           run_effects] = Some c2
        /\ state c2 =
           writes (initial_state plain_props)
             (pathname_effect
                (sample_props None (Some "/auth/signup") None None None))).
Proof.
  split; [| split; [| split]].
  - apply (proj1 (C1_path_reaction has_at
                    (sample_props None (Some "/auth/signup") None None None)
                    (initial_state plain_props)) "/auth/signup" signup);
      reflexivity.
  - apply (proj1 (proj2 (C1_path_reaction has_at
                    (sample_props None (Some "/auth/signup?next=1") None None None)
                    (initial_state plain_props))) "/auth/signup?next=1").
    + reflexivity.
    + intros []; discriminate.
  - apply (proj1 (proj2 (proj2 (C1_path_reaction has_at plain_props
                                  (initial_state plain_props))))).
    reflexivity.
  - apply (proj2 (proj2 (proj2 (C1_path_reaction has_at
                    (sample_props None (Some "/auth/signup") None None None)
                    (initial_state plain_props))))
             (after plain_props [run_effects])).
    + reflexivity.
    + reflexivity.
    + discriminate.
Defined.

(** The claim of C2 as the specification words it fails at mount: with
    signup as the initial view and magic link as the starting mode, the
    first render has magic-link mode on a view other than login. *)
Lemma C2_counterexample :
  ~ (forall ok c,
       reachable ok c -> view (state c) <> login -> isMagicLink (state c) = false).
Proof.
  intro H.
  specialize (H has_at
                (mount (sample_props (Some signup) None None (Some true) None)
                       pending)).
  assert (R : reachable has_at
                (mount (sample_props (Some signup) None None (Some true) None)
                       pending)).
  { exists (sample_props (Some signup) None None (Some true) None), pending, [].
    reflexivity. }
  specialize (H R). simpl in H.
  assert (E : true = false) by (apply H; discriminate).
  discriminate E.
Qed.

(** The same state of affairs after a transition: from login in
    magic-link mode the toggle leads to signup with the mode still on,
    and the view reaction then switches it off. *)
Example mode_after_toggle :
  let p := sample_props None None (Some true) None (Some true) in
  option_map (fun c => (view (state c), isMagicLink (state c), settled c))
    (run has_at (mount p pending)
       [run_effects; click_magic_link; click_footer_toggle])
  = Some (signup, true, false)
  /\ option_map (fun c => (view (state c), isMagicLink (state c), settled c))
       (run has_at (mount p pending)
          [run_effects; click_magic_link; click_footer_toggle; run_effects])
     = Some (signup, false, true).
Proof. split; reflexivity. Qed.

(** Events are taken on a render whose effects have not run yet: a click
    right after a host render that changed the path.  The pending path
    reaction runs after the click's handler, so the path decides the
    view, and the view reaction then switches the mode off. *)
Example click_before_effects :
  let p := sample_props None (Some "/auth/login") (Some true) None (Some true) in
  let q := sample_props None (Some "/auth/reset-password") (Some true) None
             (Some true) in
  option_map (fun c => (view (state c), isMagicLink (state c), settled c))
    (run has_at (mount p pending)
       [run_effects; click_magic_link; host_render q; click_footer_toggle])
  = Some (reset_password, true, false)
  /\ option_map (fun c => (view (state c), isMagicLink (state c), settled c))
       (run has_at (mount p pending)
          [run_effects; click_magic_link; host_render q; click_footer_toggle;
           run_effects])
     = Some (reset_password, false, true).
Proof. split; reflexivity. Qed.

Lemma C2_magic_link_only_on_login_after_view_reaction_witness :
  isMagicLink
    (state (flush (mount (sample_props (Some signup) None None (Some true) None)
                         pending)))
  = false
  /\ isMagicLink
       (state (after (sample_props None (Some "/auth/login") (Some true) None
                        (Some true))
                 [run_effects; click_magic_link;
                  host_render (sample_props None (Some "/auth/reset-password")
                                 (Some true) None (Some true));
                  click_footer_toggle; run_effects]))
     = false.
Proof.
  split.
  - apply (C2_magic_link_only_on_login_after_view_reaction has_at).
    + exists (sample_props (Some signup) None None (Some true) None), pending,
        [run_effects]. reflexivity.
    + reflexivity.
    + discriminate.
  - apply (C2_magic_link_only_on_login_after_view_reaction has_at).
    + exists (sample_props None (Some "/auth/login") (Some true) None (Some true)),
        pending,
        [run_effects; click_magic_link;
         host_render (sample_props None (Some "/auth/reset-password")
                        (Some true) None (Some true));
         click_footer_toggle; run_effects].
      reflexivity.
    + reflexivity.
    + discriminate.
Defined.

Lemma C3_session_navigation_witness :
  session_effect plain_props (present alice) = [call_navigate props_navigate "/"]
  /\ session_effect plain_props (present guest) = []
  /\ exists c2,
       run has_at (flush (mount plain_props pending))
         [session_update (present alice); run_effects] = Some c2
       /\ navigations (trace c2) =
          navigations (trace (flush (mount plain_props pending)))
          ++ navigations (session_effect plain_props (present alice))
       /\ sessionData_changed (committed c2) (current_deps c2) = false.
Proof.
  destruct (C3_session_navigation has_at) as (H1 & H2 & _ & H4).
  split; [| split].
  - apply (H1 plain_props alice {| isAnonymous := Js.undefined |}); reflexivity.
  - apply (H2 plain_props (present guest)). right. right.
    exists guest, {| isAnonymous := Js.boolean true |}. repeat split.
  - apply (H4 (flush (mount plain_props pending)) (present alice)).
    + reflexivity.
    + discriminate.
Defined.

(** The scenario of the specification: wrong credentials. *)
Lemma C4_response_handling_witness :
  exists c',
    handle has_at (in_flight plain_props "a@b.com" "x")
      (response invalid_credentials) = Some c'
    /\ loading (state c') = false
    /\ authToast (state c') =
       Some {| description := "Invalid credentials"; variant := destructive;
               action := None |}.
Proof.
  destruct (C4_response_handling has_at) as (_ & H2 & _).
  apply (H2 (in_flight plain_props "a@b.com" "x") invalid_credentials).
  - exists plain_props, pending,
      [run_effects; type_email "a@b.com"; type_password "x"; submit].
    reflexivity.
  - reflexivity.
  - discriminate.
Defined.

Lemma C5_submit_clears_notification_witness :
  (authToast (writes (state (typed_in plain_props "a@b.com" "x"))
                [preventDefault; setAuthToast None; setLoading true]) = None
   /\ loading (writes (state (typed_in plain_props "a@b.com" "x"))
                 [preventDefault; setAuthToast None; setLoading true]) = true)
  /\ (authToast (state (in_flight plain_props "a@b.com" "x")) = None
      /\ loading (state (in_flight plain_props "a@b.com" "x")) = true
      /\ outstanding (in_flight plain_props "a@b.com" "x") <> [])
  /\ (authToast (state (after plain_props
                          [run_effects; type_email "a@b.com"; type_password "x";
                           submit; click_footer_toggle])) = None
      /\ loading (state (after plain_props
                           [run_effects; type_email "a@b.com"; type_password "x";
                            submit; click_footer_toggle])) = true).
Proof.
  destruct (C5_submit_clears_notification has_at) as (H1 & H2 & H3).
  split; [| split].
  - apply (H1 (state (typed_in plain_props "a@b.com" "x"))
              [preventDefault; setAuthToast None; setLoading true]
              (signIn_email "a@b.com" "x") []).
    reflexivity.
  - apply (H2 (typed_in plain_props "a@b.com" "x")). reflexivity.
  - apply H3.
    + exists plain_props, pending,
        [run_effects; type_email "a@b.com"; type_password "x"; submit;
         click_footer_toggle].
      reflexivity.
    + discriminate.
Defined.

Lemma C6_no_second_submit_in_flight_witness :
  btn_disabled (submit_button (state (in_flight plain_props "a@b.com" "x"))) = true
  /\ handle has_at (in_flight plain_props "a@b.com" "x") submit = None
  /\ (backend_calls
        (trace (after plain_props
                  [run_effects; type_email "a@b.com"; type_password "x"; submit;
                   type_password "y"; click_footer_toggle]))
      = backend_calls (trace (in_flight plain_props "a@b.com" "x"))
      /\ loading
           (state (after plain_props
                     [run_effects; type_email "a@b.com"; type_password "x"; submit;
                      type_password "y"; click_footer_toggle])) = true
      /\ outstanding
           (after plain_props
              [run_effects; type_email "a@b.com"; type_password "x"; submit;
               type_password "y"; click_footer_toggle])
         = outstanding (in_flight plain_props "a@b.com" "x"))
  /\ exists b, outstanding (in_flight plain_props "a@b.com" "x") = [b].
Proof.
  destruct (C6_no_second_submit_in_flight has_at
              (in_flight plain_props "a@b.com" "x") eq_refl)
    as (H1 & H2 & H3 & H4).
  split; [exact H1 | split; [exact H2 | split]].
  - apply (H3 [type_password "y"; click_footer_toggle]).
    + repeat constructor; discriminate.
    + reflexivity.
  - apply H4.
    exists plain_props, pending,
      [run_effects; type_email "a@b.com"; type_password "x"; submit].
    reflexivity.
Defined.

(** The claim of C7 as the specification words it fails with routing
    enabled: on the login view a click on the toggle makes no call of
    the navigation function, whatever the target. *)
Lemma C7_counterexample :
  ~ (forall p s,
       Js.truthy_flag (disableRouting p) = false -> view s = login ->
       exists url,
         In (call_navigate (resolved_navigate p) url) (click (footer_toggle p s))).
Proof.
  intro H.
  destruct (H plain_props (initial_state plain_props) eq_refl eq_refl)
    as [url Hin].
  simpl in Hin. destruct Hin as [E | []]. discriminate E.
Qed.

Lemma C7_footer_toggle_witness :
  (click (footer_toggle (sample_props None None None None (Some true))
                        (initial_state plain_props))
     = [setView signup]
   /\ calls (click (footer_toggle (sample_props None None None None (Some true))
                                  (initial_state plain_props))) = [])
  /\ click (footer_toggle plain_props (initial_state plain_props))
     = [follow_href "/auth/signup"]
  /\ click (footer_toggle plain_props
              (initial_state (sample_props (Some signup) None None None None)))
     = [follow_href "/auth/login"].
Proof.
  split; [| split].
  - destruct (proj1 (C7_footer_toggle
                       (sample_props None None None None (Some true))
                       (initial_state plain_props)) eq_refl)
      as (H1 & _ & _ & H4).
    split; [exact H1 | exact H4].
  - apply (proj1 (proj2 (C7_footer_toggle plain_props (initial_state plain_props))));
      reflexivity.
  - apply (proj1 (proj2 (C7_footer_toggle plain_props
             (initial_state (sample_props (Some signup) None None None None)))));
      reflexivity.
Defined.

(** The claim of C8 as the specification words it fails: in magic-link
    mode the submission still issues the password sign-in call. *)
Lemma C8_counterexample :
  ~ (forall s,
       isMagicLink s = true ->
       forall em pw, ~ In (call_backend (signIn_email em pw)) (onSubmit_start s)).
Proof.
  intro H.
  apply (H (initial_state (sample_props None None (Some true) (Some true) None))
           eq_refl "" "").
  simpl. auto.
Qed.

(** A run in which it happens: mounted in magic-link mode, an address
    typed in, the form submitted. *)
Example magic_link_submission :
  let c := after (sample_props None None (Some true) (Some true) None)
             [run_effects; type_email "a@b.com"] in
  isMagicLink (state c) = true
  /\ option_map trace (handle has_at c submit)
     = Some [call_backend (signIn_email "a@b.com" "")].
Proof. split; reflexivity. Qed.

Lemma C8_magic_link_submits_password_sign_in_witness :
  onSubmit_start (initial_state (sample_props None None (Some true) (Some true) None))
  = onSubmit_start (initial_state plain_props)
  /\ backend_calls
       (onSubmit_start
          (initial_state (sample_props None None (Some true) (Some true) None)))
     = [call_backend (signIn_email "" "")].
Proof.
  destruct C8_magic_link_submits_password_sign_in as [H1 H2]. split.
  - apply H1; reflexivity.
  - apply (H2 (initial_state (sample_props None None (Some true) (Some true) None))).
    reflexivity.
Defined.

(** The claim of C9 as the specification words it fails: outside
    magic-link mode the password field is not marked required. *)
Lemma C9_counterexample :
  ~ (forall s,
       el_required (email_input s) = true
       /\ (el_required (password_input s) = true <-> isMagicLink s = false)).
Proof.
  intro H.
  destruct (H (initial_state plain_props)) as [_ [_ H2]].
  specialize (H2 eq_refl). discriminate H2.
Qed.

(** And a submit with the password left empty reaches [onSubmit]. *)
Example empty_password_is_submitted :
  let c := after plain_props [run_effects; type_email "a@b.com"] in
  isMagicLink (state c) = false /\ password (state c) = ""
  /\ option_map trace (handle has_at c submit)
     = Some [call_backend (signIn_email "a@b.com" "")].
Proof. repeat split; reflexivity. Qed.

Lemma C9_required_marking_witness :
  can_submit has_at (initial_state plain_props) = false
  /\ handle has_at (after plain_props [run_effects]) submit = None.
Proof.
  destruct (C9_required_marking has_at (initial_state plain_props))
    as (_ & _ & _ & _ & H5 & H6).
  split.
  - apply H5. reflexivity.
  - apply (H6 (after plain_props [run_effects])); reflexivity.
Defined.

Lemma C10_single_backend_operation_witness :
  trace (after (sample_props (Some logout) None None None None)
           [run_effects; type_email "a@b.com"; type_password "x"; submit])
  = trace (after (sample_props (Some logout) None None None None)
             [run_effects; type_email "a@b.com"; type_password "x"])
    ++ [call_backend (signIn_email "a@b.com" "x")]
  /\ exists em pw, signIn_email "a@b.com" "" = signIn_email em pw.
Proof.
  destruct (C10_single_backend_operation has_at) as [H1 H2]. split.
  - apply (H1 (after (sample_props (Some logout) None None None None)
                 [run_effects; type_email "a@b.com"; type_password "x"]));
      reflexivity.
  - apply (H2 (after (sample_props (Some forgot_password) None None None None)
                 [run_effects; type_email "a@b.com"; submit])).
    + exists (sample_props (Some forgot_password) None None None None), pending,
        [run_effects; type_email "a@b.com"; submit].
      reflexivity.
    + simpl. auto.
Defined.

(** * The rest of the component *)

(** ** Texts *)

Lemma get_put : forall o k v k',
  get (put o k v) k' = if String.eqb k k' then v else get o k'.
Proof.
  induction o as [| [k0 v0] o IH]; intros k v k'; simpl.
  - reflexivity.
  - destruct (String.eqb_spec k0 k) as [-> | Hne]; simpl.
    + destruct (String.eqb k k'); reflexivity.
    + rewrite IH. destruct (String.eqb_spec k0 k') as [-> | Hne'].
      * destruct (String.eqb_spec k k'); congruence.
      * reflexivity.
Qed.

Lemma has_key_false_get : forall o k, has_key o k = false -> get o k = None.
Proof.
  induction o as [| [k0 v0] o IH]; intros k H; simpl in *; auto.
  apply orb_false_iff in H. destruct H as [H1 H2]. rewrite H1. auto.
Qed.

(** The merge [{ ...a, ...b }]: a key of [b] reads as in [b], also when
    its value there is [undefined]; any other key reads as in [a]. *)
Theorem spread_get : forall (b a : Dict) (k : string),
  NoDup (map fst b) ->
  get (spread a b) k = if has_key b k then get b k else get a k.
Proof.
  unfold spread.
  induction b as [| [k0 v0] b IH]; intros a k Hnd; simpl.
  - reflexivity.
  - inversion Hnd as [| ? ? Hnotin Hnd']; subst.
    rewrite (IH _ _ Hnd'), get_put.
    destruct (has_key b k) eqn:Hb.
    + destruct (String.eqb_spec k0 k) as [-> | Hne].
      * exfalso. apply Hnotin. unfold has_key in Hb.
        apply existsb_exists in Hb. destruct Hb as [[k1 v1] [Hin E]].
        simpl in E. apply String.eqb_eq in E. subst k1.
        change k with (fst (k, v1)). apply in_map, Hin.
      * rewrite orb_true_r. reflexivity.
    + rewrite orb_false_r. destruct (String.eqb k0 k); reflexivity.
Qed.

Lemma spread_get_witness :
  get (spread [("error", Some "Error"); ("alert", Some "Alert")]
              [("alert", None); ("login", Some "Log in")]) "alert" = None
  /\ get (spread [("error", Some "Error"); ("alert", Some "Alert")]
                 [("alert", None); ("login", Some "Log in")]) "error"
     = Some "Error".
Proof.
  split.
  - rewrite (spread_get [("alert", None); ("login", Some "Log in")] _ "alert").
    + reflexivity.
    + repeat constructor; simpl; intuition discriminate.
  - rewrite (spread_get [("alert", None); ("login", Some "Log in")] _ "error").
    + reflexivity.
    + repeat constructor; simpl; intuition discriminate.
Defined.

(** With the built-in table alone, every view but logout has a title and
    a submit label, and only login and signup have a description: the
    other lookups give [undefined].  A host table supplies or replaces
    any of these texts, whatever the view. *)
Theorem texts_by_view : forall (s : State),
  (card_title None s = None <-> view s = logout)
  /\ (submit_label None s = None <-> view s = logout)
  /\ (card_description None s = None <-> view s <> login /\ view s <> signup)
  /\ (forall d suffix,
        NoDup (map fst d) ->
        has_key d (text_key (view s) suffix) = true ->
        get (localized (Some d)) (text_key (view s) suffix)
        = get d (text_key (view s) suffix)).
Proof.
  intros [em pw ld v ml t].
  unfold card_title, submit_label, card_description. simpl view.
  split; [| split; [| split]].
  - destruct v; vm_compute; split; intro H; congruence.
  - destruct v; vm_compute; split; intro H; congruence.
  - destruct v; vm_compute; split; intro H;
      try discriminate H; try (split; discriminate);
      destruct H as [H1 H2]; congruence.
  - intros d suffix Hnd Hk. unfold localized.
    rewrite (spread_get d _ _ Hnd), Hk. reflexivity.
Qed.

Lemma texts_by_view_witness :
  get (localized (Some [("logout_title", Some "Sign out")]))
      (text_key logout "_title")
  = Some "Sign out".
Proof.
  apply (proj2 (proj2 (proj2
           (texts_by_view {| email := ""; password := ""; loading := false;
                             view := logout; isMagicLink := false;
                             authToast := None |})))
           [("logout_title", Some "Sign out")] "_title").
  - repeat constructor. simpl. intuition.
  - reflexivity.
Defined.




(** ** Paths *)

Lemma view_name_no_slash : forall v, Js.has_slash (view_name v) = false.
Proof. intros []; reflexivity. Qed.

Lemma view_name_not_proper_prefix : forall v w suffix,
  (view_name v ++ suffix)%string = view_name w -> suffix = "".
Proof.
  intros v w suffix H.
  destruct v, w; simpl in H; congruence.
Qed.

Lemma has_slash_ends_with_slash : forall pre,
  Js.after_last_slash (pre ++ String Js.slash "")%string = "".
Proof. intro pre. apply after_last_slash_spec. reflexivity. Qed.

(** Which shapes of path select a view.  A view name after the last
    '/' selects that view whatever comes before it; anything appended to
    the name (a query string, a fragment) defeats the match, and so does
    a trailing '/'. *)
Theorem path_shapes : forall (p : AuthCardProps),
  (forall pre v suffix,
      Js.has_slash suffix = false ->
      resolved_pathname p
      = Some (pre ++ String Js.slash (view_name v ++ suffix))%string ->
      pathname_effect p = if String.eqb suffix "" then [setView v] else [])
  /\ (forall v,
      resolved_pathname p = Some (view_name v) ->
      pathname_effect p = [setView v])
  /\ (forall pre,
      resolved_pathname p = Some (pre ++ String Js.slash "")%string ->
      pathname_effect p = []).
Proof.
  intro p. split; [| split].
  - intros pre v suffix Hs Hp.
    rewrite pathname_effect_eq, Hp, after_last_slash_spec.
    + destruct (String.eqb_spec suffix "") as [-> | Hne].
      * replace (view_name v ++ "")%string with (view_name v)
          by (destruct v; reflexivity).
        rewrite includes_view_name. reflexivity.
      * assert (E : includes_view (Some (view_name v ++ suffix)%string) = None).
        { apply includes_view_None. intros w Hw.
          apply Hne. exact (view_name_not_proper_prefix v w suffix Hw). }
        rewrite E. reflexivity.
    + rewrite has_slash_app, view_name_no_slash, Hs. reflexivity.
  - intros v Hp. rewrite pathname_effect_eq, Hp.
    rewrite (after_last_slash_no_slash _ (view_name_no_slash v)).
    rewrite includes_view_name. reflexivity.
  - intros pre Hp. rewrite pathname_effect_eq, Hp, has_slash_ends_with_slash.
    reflexivity.
Qed.

Lemma path_shapes_witness :
  pathname_effect (sample_props None (Some "/app/auth/logout") None None None)
    = [setView logout]
  /\ pathname_effect (sample_props None (Some "/auth/login?next=1") None None None)
     = []
  /\ pathname_effect (sample_props None (Some "signup") None None None)
     = [setView signup]
  /\ pathname_effect (sample_props None (Some "/auth/login/") None None None) = [].
Proof.
  split; [| split; [| split]].
  - apply (proj1 (path_shapes _) "/app/auth" logout ""); reflexivity.
  - apply (proj1 (path_shapes _) "/auth" login "?next=1"); reflexivity.
  - apply (proj1 (proj2 (path_shapes _)) signup). reflexivity.
  - apply (proj2 (proj2 (path_shapes _)) "/auth/login"). reflexivity.
Defined.

Lemma join_slash_cons : forall x y rest,
  join_slash (x :: y :: rest)
  = (x ++ String Js.slash (join_slash (y :: rest)))%string.
Proof. reflexivity. Qed.

(** What [split("/")] returns: one piece more than there are separators,
    no piece containing a separator, and the pieces joined by '/' give
    back the string. *)
Theorem split_slash_pieces : forall s,
  join_slash (Js.split_slash s) = s
  /\ length (Js.split_slash s) = S (occurrences Js.slash s)
  /\ Forall (fun seg => Js.has_slash seg = false) (Js.split_slash s).
Proof.
  induction s as [| c s (IHj & IHl & IHf)].
  - repeat split. repeat constructor.
  - simpl Js.split_slash. simpl occurrences.
    destruct (Ascii.eqb_spec c Js.slash) as [-> | Hne].
    + destruct (Js.split_slash s) as [| y rest] eqn:E.
      * destruct (split_slash_nonempty _ E).
      * split; [| split].
        -- rewrite join_slash_cons, IHj. reflexivity.
        -- simpl length in *. rewrite IHl. reflexivity.
        -- constructor; auto.
    + destruct (Js.split_slash s) as [| y rest] eqn:E.
      * destruct (split_slash_nonempty _ E).
      * pose proof (Forall_inv IHf) as Hy.
        pose proof (Forall_inv_tail IHf) as Hrest.
        split; [| split].
        -- destruct rest as [| z rest].
           ++ simpl in *. rewrite IHj. reflexivity.
           ++ rewrite <- IHj, !join_slash_cons. reflexivity.
        -- simpl length in *. rewrite IHl. reflexivity.
        -- constructor; auto. simpl. rewrite Hy.
           destruct (Ascii.eqb_spec c Js.slash); [contradiction | reflexivity].
Qed.

(** ** What is shown *)

(** The two provider buttons are disabled exactly when they are hidden,
    and are never both enabled; on the login view, with both ways of
    signing in allowed, exactly one of them is enabled.  The "forgot
    password" link is shown only while the password field is shown and
    enabled. *)
Theorem provider_buttons : forall (p : AuthCardProps) (o : SessionObservation) (s : State),
  btn_disabled (magic_link_button p s) = magic_link_button_hidden p s
  /\ btn_disabled (password_provider_button p s)
     = password_provider_button_hidden p s
  /\ btn_disabled (magic_link_button p s)
     || btn_disabled (password_provider_button p s) = true
  /\ (view s = login ->
      Js.truthy_flag (magicLink p) = true ->
      emailPassword_or_default p = true ->
      btn_disabled (magic_link_button p s) = isMagicLink s
      /\ btn_disabled (password_provider_button p s) = negb (isMagicLink s))
  /\ (forgot_link_shown o s = true ->
      password_block_hidden s = false
      /\ el_disabled (password_input s) = false).
Proof.
  intros p o s. split; [| split; [| split; [| split]]].
  - reflexivity.
  - reflexivity.
  - simpl.
    destruct (AuthView_eqb (view s) login), (Js.truthy_flag (magicLink p)),
             (isMagicLink s), (emailPassword_or_default p); reflexivity.
  - intros Hv Hm He. simpl. rewrite Hv, Hm, He. split; reflexivity.
  - unfold forgot_link_shown, password_block_hidden. simpl. intro H.
    destruct (isMagicLink s); auto.
    rewrite andb_false_r in H. discriminate H.
Qed.

Lemma provider_buttons_witness :
  (btn_disabled (magic_link_button (sample_props None None (Some true) None None)
                   (initial_state plain_props)) = false
   /\ btn_disabled (password_provider_button
                      (sample_props None None (Some true) None None)
                      (initial_state plain_props)) = true)
  /\ (password_block_hidden (initial_state plain_props) = false
      /\ el_disabled (password_input (initial_state plain_props)) = false).
Proof.
  split.
  - apply (proj1 (proj2 (proj2 (proj2
             (provider_buttons (sample_props None None (Some true) None None)
                               absent (initial_state plain_props))))));
      reflexivity.
  - apply (proj2 (proj2 (proj2 (proj2
             (provider_buttons plain_props absent (initial_state plain_props))))));
      reflexivity.
Defined.

(** ** Which step changes what *)

Section Cells.

Variable email_syntax_ok : string -> bool.

Local Abbreviation step := (handle email_syntax_ok).
Local Abbreviation steps := (run email_syntax_ok).
Local Abbreviation reach := (reachable email_syntax_ok).

Lemma effects_view_on : forall prev p o s x,
  view (writes x (effects prev p o s))
  = view (writes x (if pathname_changed prev (deps_of p o s)
                    then pathname_effect p else [])).
Proof.
  intros. rewrite effects_writes_on.
  destruct (view_changed _ _); auto.
  destruct (view_effect_cases s) as [[_ E] | [_ E]]; rewrite E; reflexivity.
Qed.

Lemma handler_isMagicLink : forall c e c1,
  deliver_shape email_syntax_ok c e c1 ->
  isMagicLink (state c1) = true ->
  isMagicLink (state c) = true
  \/ (e = click_magic_link
      /\ view (state c) = login
      /\ Js.truthy_flag (magicLink (props c)) = true).
Proof.
  intros c e c1 H Hm.
  destruct e; simpl in H; try contradiction;
    repeat match type of H with
           | _ /\ _ => let H1 := fresh "Hg" in destruct H as [H1 H]
           | exists _, _ => let x := fresh "x" in destruct H as [x H]
           end;
    subst;
    try (simpl in Hm; auto; fail).
  - left. simpl in Hm. destruct (error_message r); exact Hm.
  - right. simpl in Hg.
    apply orb_false_iff in Hg. destruct Hg as [Hd _].
    apply orb_false_iff in Hd. destruct Hd as [Hv Hml].
    apply negb_false_iff in Hv, Hml. apply AuthView_eqb_eq in Hv. auto.
  - discriminate Hm.
  - left.
    destruct (footer_click_frame (props c) (state c)) as (_ & _ & _ & _ & E).
    rewrite <- E. exact Hm.
Qed.

(** Magic-link mode is switched on by the magic-link button alone, and
    that button works only on the login view of a host that offers magic
    links: no other step, no effect and no response, turns the mode on.
    Over a run without a press of that button the mode, once off, stays
    off. *)
Theorem magic_link_switched_on_by_button_only :
  (forall c e c',
      step c e = Some c' ->
      isMagicLink (state c') = true ->
      isMagicLink (state c) = true
      \/ (e = click_magic_link
          /\ view (state c) = login
          /\ Js.truthy_flag (magicLink (props c)) = true))
  /\ (forall es c c',
      ~ In click_magic_link es ->
      steps c es = Some c' ->
      isMagicLink (state c) = false ->
      isMagicLink (state c') = false).
Proof.
  assert (A : forall c e c',
      step c e = Some c' ->
      isMagicLink (state c') = true ->
      isMagicLink (state c) = true
      \/ (e = click_magic_link
          /\ view (state c) = login
          /\ Js.truthy_flag (magicLink (props c)) = true)).
  { intros c e c' H Hm. apply (handle_inv email_syntax_ok) in H.
    assert (G : (exists c1, deliver_shape email_syntax_ok c e c1
                   /\ c' = if settled c then c1 else late_effects c c1) ->
                isMagicLink (state c) = true
                \/ (e = click_magic_link
                    /\ view (state c) = login
                    /\ Js.truthy_flag (magicLink (props c)) = true)).
    { intros (c1 & Hd & ->). apply (handler_isMagicLink c e c1 Hd).
      destruct (settled c); [exact Hm |].
      exact (effects_isMagicLink_mono_on _ _ _ _ _ Hm). }
    destruct e; try (apply G; exact H).
    simpl in H. destruct H as [_ ->]. left.
    exact (effects_isMagicLink_mono _ _ _ _ Hm). }
  split; [exact A |].
  induction es as [| e es IH]; intros c c' Hnin Hr Hoff; cbn [run] in Hr.
  - inversion Hr; subst; exact Hoff.
  - destruct (step c e) as [c1 |] eqn:E; try discriminate Hr.
    apply (IH c1 c'); auto.
    + intro Hin. apply Hnin. right. exact Hin.
    + destruct (isMagicLink (state c1)) eqn:E1; auto.
      destruct (A c e c1 E E1) as [Hon | (He & _)].
      * congruence.
      * exfalso. apply Hnin. left. auto.
Qed.

Lemma handler_credentials : forall c e c1,
  deliver_shape email_syntax_ok c e c1 ->
  ((forall x, e <> type_email x) -> email (state c1) = email (state c))
  /\ ((forall x, e <> type_password x) ->
      password (state c1) = password (state c))
  /\ (forall x, e = type_email x -> email (state c1) = x)
  /\ (forall x, e = type_password x ->
      password (state c1) = x /\ isMagicLink (state c) = false).
Proof.
  intros c e c1 H.
  assert (G := footer_click_frame (props c) (state c)).
  cbv zeta in G. destruct G as (G1 & G2 & _).
  destruct e; simpl in H; try contradiction;
    repeat match type of H with
           | _ /\ _ => let H1 := fresh "Hg" in destruct H as [H1 H]
           | exists _, _ => let x := fresh "x" in destruct H as [x H]
           end;
    subst;
    try (destruct (onSubmit_resume_cases r) as [[_ E] | (m & _ & E)]; rewrite E);
    (split; [| split; [| split]]).
  all: try (intro Hx;
            first [ exact G1 | exact G2 | reflexivity
                  | exfalso; eapply Hx; reflexivity ]).
  all: intros y Hy;
       first [ discriminate Hy
             | inversion Hy; subst;
               first [ reflexivity | split; [reflexivity | assumption] ] ].
Qed.

(** The credentials change by typing alone: the email cell is written
    only by an edit of the email field and the password cell only by an
    edit of the password field, which is possible only outside
    magic-link mode.  Submitting, a response, a change of view or of
    mode leave what was typed in place. *)
Theorem credentials_change_by_typing_only : forall c e c',
  handle email_syntax_ok c e = Some c' ->
  ((forall x, e <> type_email x) -> email (state c') = email (state c))
  /\ ((forall x, e <> type_password x) ->
      password (state c') = password (state c))
  /\ (forall x, e = type_email x -> email (state c') = x)
  /\ (forall x, e = type_password x ->
      password (state c') = x /\ isMagicLink (state c) = false).
Proof.
  intros c e c' H. apply (handle_inv email_syntax_ok) in H.
  assert (F := effects_frame (committed c) (props c) (session c) (state c)).
  cbv zeta in F. destruct F as (F1 & F2 & _).
  assert (G : (exists c1, deliver_shape email_syntax_ok c e c1
                 /\ c' = if settled c then c1 else late_effects c c1) ->
    ((forall x, e <> type_email x) -> email (state c') = email (state c))
    /\ ((forall x, e <> type_password x) ->
        password (state c') = password (state c))
    /\ (forall x, e = type_email x -> email (state c') = x)
    /\ (forall x, e = type_password x ->
        password (state c') = x /\ isMagicLink (state c) = false)).
  { intros (c1 & Hd & ->).
    pose proof (handler_credentials _ _ _ Hd) as K.
    destruct (effects_frame_on (committed c) (props c) (session c)
                (state c) (state c1)) as (L1 & L2 & _).
    assert (E1 : email (state (if settled c then c1 else late_effects c c1))
                 = email (state c1))
      by (destruct (settled c); [reflexivity | exact L1]).
    assert (E2 : password (state (if settled c then c1 else late_effects c c1))
                 = password (state c1))
      by (destruct (settled c); [reflexivity | exact L2]).
    rewrite E1, E2. exact K. }
  destruct e; try (apply G; exact H).
  simpl in H. destruct H as [_ ->].
  split; [intros _; exact F1 | split; [intros _; exact F2 |]].
  split; intros y Hy; discriminate Hy.
Qed.

Lemma handler_view : forall c e c1,
  deliver_shape email_syntax_ok c e c1 ->
  view (state c1) <> view (state c) ->
  e = click_footer_toggle /\ view (state c1) = toggled (view (state c)).
Proof.
  intros c e c1 H Hv.
  destruct e; simpl in H; try contradiction;
    repeat match type of H with
           | _ /\ _ => let H1 := fresh "Hg" in destruct H as [H1 H]
           | exists _, _ => let x := fresh "x" in destruct H as [x H]
           end;
    subst;
    try (exfalso; apply Hv; reflexivity).
  - exfalso. apply Hv. simpl. destruct (error_message r); reflexivity.
  - split; auto.
    destruct (footer_click_cases (props c) (state c)) as [E | [E | E]];
      cbv zeta in E; rewrite E in *; simpl in *;
      try reflexivity; destruct (Hv eq_refl).
Qed.

(** The active view changes in two ways only: by the path reaction,
    when the host path changed to one that names a view, and by a click
    on the footer toggle that runs the swap.  After a swap the view is
    login or signup. *)
Theorem view_changes_by_path_or_toggle_only : forall c e c',
  step c e = Some c' ->
  view (state c') <> view (state c) ->
  (settled c = false
   /\ pathname_changed (committed c) (current_deps c) = true
   /\ pathname_effect (props c) = [setView (view (state c'))])
  \/ (e = click_footer_toggle
      /\ view (state c') = toggled (view (state c))
      /\ (view (state c') = login \/ view (state c') = signup)).
Proof.
  intros c e c' H Hv. apply (handle_inv email_syntax_ok) in H.
  assert (P : forall x,
    view (writes x (effects (committed c) (props c) (session c) (state c)))
    <> view x ->
    pathname_changed (committed c) (current_deps c) = true
    /\ pathname_effect (props c)
       = [setView (view (writes x (effects (committed c) (props c)
                                     (session c) (state c))))]).
  { intros x Hx. rewrite effects_view_on in *. unfold current_deps.
    destruct (pathname_changed (committed c) _); [| destruct (Hx eq_refl)].
    split; auto.
    destruct (pathname_effect_cases (props c)) as [E | [v E]]; rewrite E in *;
      [destruct (Hx eq_refl) | reflexivity]. }
  assert (T : forall v, toggled v = login \/ toggled v = signup).
  { intro v. unfold toggled. destruct (AuthView_eqb v signup); auto. }
  assert (G : (exists c1, deliver_shape email_syntax_ok c e c1
                 /\ c' = if settled c then c1 else late_effects c c1) ->
              (settled c = false
               /\ pathname_changed (committed c) (current_deps c) = true
               /\ pathname_effect (props c) = [setView (view (state c'))])
              \/ (e = click_footer_toggle
                  /\ view (state c') = toggled (view (state c))
                  /\ (view (state c') = login \/ view (state c') = signup))).
  { intros (c1 & Hd & ->). destruct (settled c) eqn:Hs.
    - right. destruct (handler_view _ _ _ Hd Hv) as [He Ht].
      rewrite Ht. auto.
    - change (state (late_effects c c1))
        with (writes (state c1)
                (effects (committed c) (props c) (session c) (state c))) in *.
      destruct (AuthView_eqb
                  (view (writes (state c1)
                           (effects (committed c) (props c) (session c)
                              (state c))))
                  (view (state c1))) eqn:Eq.
      + apply AuthView_eqb_eq in Eq. rewrite Eq in *. right.
        destruct (handler_view _ _ _ Hd Hv) as [He Ht]. rewrite Ht. auto.
      + apply AuthView_eqb_neq in Eq. left. split; auto. }
  destruct e; try (apply G; exact H).
  simpl in H. destruct H as [Hs ->]. left. split; auto.
  change (state (flush c))
    with (writes (state c)
            (effects (committed c) (props c) (session c) (state c))) in *.
  apply P. exact Hv.
Qed.

End Cells.

(** ** Effect passes *)

Lemma sessionData_changed_eq : forall prev p o s,
  sessionData_changed prev (deps_of p o s) =
  match prev with
  | Some d => negb (option_eqb Nat.eqb (dep_sessionData d)
                      (option_map ref (sessionData o)))
  | None => true
  end.
Proof. reflexivity. Qed.

Lemma pathname_changed_eq : forall prev p o s,
  pathname_changed prev (deps_of p o s) =
  match prev with
  | Some d => negb (option_eqb String.eqb (dep_pathname d) (resolved_pathname p))
  | None => true
  end.
Proof. reflexivity. Qed.

Lemma authToast_changed_eq : forall prev p o s,
  authToast_changed prev (deps_of p o s) =
  match prev with
  | Some d => negb (option_eqb AuthToastOptions_eqb (dep_authToast d) (authToast s))
  | None => true
  end.
Proof. reflexivity. Qed.

Lemma settled_authToast : forall c,
  settled c = true -> authToast_changed (committed c) (current_deps c) = false.
Proof.
  unfold settled, effects_due. intros c H.
  apply negb_true_iff in H. apply orb_false_iff in H. destruct H as [_ H].
  exact H.
Qed.

Lemma settled_committed : forall c,
  settled c = true -> exists d, committed c = Some d.
Proof.
  intros c H. apply settled_view in H. unfold current_deps in H.
  rewrite view_changed_eq in H.
  destruct (committed c) as [d |]; [eauto | discriminate H].
Qed.

(** The effects when only one dependency changed. *)
Lemma effects_by_dependency : forall prev p o s,
  effects prev p o s =
  (if sessionData_changed prev (deps_of p o s) then session_effect p o else [])
  ++ (if pathname_changed prev (deps_of p o s) then pathname_effect p else [])
  ++ (if view_changed prev (deps_of p o s) then view_effect s else [])
  ++ (if authToast_changed prev (deps_of p o s) then toast_effect p s else []).
Proof. reflexivity. Qed.

Lemma calls_view_effect : forall s, calls (view_effect s) = [].
Proof.
  intro s. destruct (view_effect_cases s) as [[_ E] | [_ E]]; rewrite E;
    reflexivity.
Qed.

(** After any event the effects come to rest within two passes, and the
    second pass, which can only be the view reaction switching magic-link
    mode off, makes no call to the outside: navigation and forwarding of
    a notification happen in the first pass or not at all. *)
Theorem effects_rest_after_two_passes : forall c,
  settled (flush (flush c)) = true
  /\ calls (effects (committed (flush c)) (props (flush c))
              (session (flush c)) (state (flush c))) = []
  /\ trace (flush (flush c)) = trace (flush c)
  /\ view (state (flush (flush c))) = view (state (flush c)).
Proof.
  intro c.
  destruct (flush_settles_outside_view c) as (A & B & D).
  assert (E : calls (effects (committed (flush c)) (props (flush c))
                       (session (flush c)) (state (flush c))) = []).
  { rewrite effects_by_dependency.
    unfold current_deps in A, B, D. rewrite A, B, D, !calls_app.
    cbn [calls filter app]. rewrite app_nil_r.
    match goal with
    | |- context [if ?b then _ else _] => destruct b
    end; [apply calls_view_effect | reflexivity]. }
  split; [apply settled_flush_twice | split; [exact E | split]].
  - unfold flush at 1. cbn [trace]. rewrite E. apply app_nil_r.
  - apply flush_view_when_path_quiet. exact B.
Qed.

(** ** Notifications and calls *)

Lemma error_message_nonempty : forall r m, error_message r = Some m -> m <> "".
Proof.
  intros r m. unfold error_message.
  destruct (error r) as [e |]; try discriminate.
  destruct (message e) as [m' |]; simpl; try discriminate.
  destruct (String.eqb_spec m' ""); simpl; try discriminate.
  intro H. inversion H; subst. assumption.
Qed.

Lemma footer_click_routing_disabled : forall p s,
  Js.truthy_flag (disableRouting p) = true ->
  click (footer_toggle p s) = [setView (toggled (view s))].
Proof.
  intros p s H. unfold footer_toggle. rewrite H. reflexivity.
Qed.

Lemma footer_click_default_link : forall p s,
  Js.truthy_flag (disableRouting p) = false ->
  LinkComponent p = None ->
  click (footer_toggle p s) = [follow_href (toggle_href (view s))].
Proof.
  intros p s H L. unfold footer_toggle, render_link. rewrite H, L. reflexivity.
Qed.

Lemma effects_known_calls : forall prev p o s,
  built_by_onSubmit (authToast s) ->
  Forall known_call (calls (effects prev p o s)).
Proof.
  intros prev p o s Hb. rewrite effects_by_dependency, !calls_app.
  apply Forall_app; split; [| apply Forall_app; split; [| apply Forall_app; split]].
  - destruct (sessionData_changed _ _); [| constructor].
    destruct (session_effect_cases p o) as [E | E]; rewrite E; simpl;
      repeat constructor.
  - destruct (pathname_changed _ _); [| constructor].
    destruct (pathname_effect_cases p) as [E | [v E]]; rewrite E; constructor.
  - destruct (view_changed _ _); [| constructor].
    rewrite calls_view_effect. constructor.
  - destruct (authToast_changed _ _); [| constructor].
    unfold toast_effect. destruct (authToast s) as [t |]; [| constructor].
    destruct (toast p); [| constructor].
    simpl. constructor; [| constructor].
    simpl in Hb. destruct Hb as (Hv & Ha & _). split; assumption.
Qed.

Lemma footer_known_calls : forall p s,
  Forall known_call (calls (click (footer_toggle p s))).
Proof.
  intros p s.
  assert (K : known_call
                (follow_href (if AuthView_eqb (view s) signup
                              then "/auth/login" else "/auth/signup"))).
  { destruct (AuthView_eqb (view s) signup); simpl; auto. }
  destruct (footer_click_cases p s) as [E | [E | E]]; cbv zeta in E; rewrite E;
    cbn [calls filter is_call]; auto.
Qed.

Section Flows.

Variable email_syntax_ok : string -> bool.

Local Abbreviation step := (handle email_syntax_ok).
Local Abbreviation steps := (run email_syntax_ok).
Local Abbreviation reach := (reachable email_syntax_ok).

Lemma pending_ops_frame : forall c x,
  authToast (writes x (pending_ops c)) = authToast x.
Proof.
  intros c x. unfold pending_ops. destruct (settled c); auto.
  apply effects_frame_on.
Qed.

Lemma handler_notification : forall c e,
  built_by_onSubmit (authToast (state c)) ->
  built_by_onSubmit (authToast (writes (state c) (handler_ops c e))).
Proof.
  intros c e Hb. destruct e; simpl handler_ops; try exact Hb.
  - simpl. exact I.
  - destruct (onSubmit_resume_cases r) as [[_ E] | (m & Em & E)]; rewrite E.
    + exact Hb.
    + simpl. repeat split. exact (error_message_nonempty _ _ Em).
  - destruct (footer_click_frame (props c) (state c)) as (_ & _ & _ & E & _).
    rewrite E. exact Hb.
Qed.


Lemma handler_known_calls : forall c e,
  Forall known_call (calls (handler_ops c e)).
Proof.
  intros c e. destruct e; simpl handler_ops; try (simpl; constructor).
  - simpl. eauto.
  - constructor.
  - destruct (onSubmit_resume_cases r) as [[_ E] | (m & _ & E)]; rewrite E;
      constructor.
  - apply footer_known_calls.
  - simpl. auto.
  - constructor.
Qed.

Lemma known_calls_inv : forall c,
  reach c ->
  built_by_onSubmit (authToast (state c)) /\ Forall known_call (trace c).
Proof.
  apply (reachable_invariant email_syntax_ok
           (fun c => built_by_onSubmit (authToast (state c))
                     /\ Forall known_call (trace c))).
  - intros p o. split; simpl; auto.
  - intros c e c' [Hb Hk] H.
    destruct (step_trace email_syntax_ok _ _ _ H) as [Ht Hst].
    rewrite Ht, Hst. unfold step_ops. split.
    + rewrite writes_app, pending_ops_frame. apply handler_notification, Hb.
    + rewrite calls_app. apply Forall_app. split; [exact Hk |].
      apply Forall_app. split; [apply handler_known_calls |].
      unfold pending_ops. destruct (settled c); [constructor |].
      apply effects_known_calls, Hb.
Qed.


(** The targets of the four kinds of call the trace records.  Whenever
    the navigation function is called the target is "/"; every request
    sent through [authClient.signIn] is the password sign-in; every
    notification handed to the sink is an error notification without
    action; every link that is followed leads to "/auth/login",
    "/auth/signup" or "/forgot-password".  (The session subscription of
    the render and [preventDefault] are not calls of the trace.) *)
Theorem only_known_calls : forall c,
  reach c -> Forall known_call (trace c).
Proof.
  intros c Hr. exact (proj2 (known_calls_inv c Hr)).
Qed.

End Flows.

(** ** Journeys *)

Lemma toggled_neq : forall v, AuthView_eqb v (toggled v) = false.
Proof. intros []; reflexivity. Qed.

Lemma option_eqb_None_r : forall A (eqb : A -> A -> bool) (a : option A),
  option_eqb eqb a None = true -> a = None.
Proof. intros A eqb [x |] H; [discriminate H | reflexivity]. Qed.

Lemma settled_after_flush : forall c,
  pathname_changed (committed c) (current_deps c) = false ->
  settled (flush c) = true.
Proof.
  intros c B. unfold settled, effects_due. apply negb_true_iff.
  destruct (flush_settles_outside_view c) as (A' & B' & D').
  rewrite A', B', D'. simpl. rewrite orb_false_r.
  apply negb_false_iff, AuthView_eqb_eq. symmetry.
  exact (flush_view_when_path_quiet _ B).
Qed.

Section Journeys.

Variable email_syntax_ok : string -> bool.

Local Abbreviation step := (handle email_syntax_ok).
Local Abbreviation steps := (run email_syntax_ok).
Local Abbreviation reach := (reachable email_syntax_ok).

(** One direct swap and the effect pass after it. *)
Lemma toggle_once : forall c,
  settled c = true ->
  Js.truthy_flag (disableRouting (props c)) = true ->
  exists c2,
    steps c [click_footer_toggle; run_effects] = Some c2
    /\ props c2 = props c
    /\ view (state c2) = toggled (view (state c))
    /\ isMagicLink (state c2)
       = (if AuthView_eqb (toggled (view (state c))) login
          then isMagicLink (state c) else false)
    /\ settled c2 = true
    /\ trace c2 = trace c.
Proof.
  intros c Hs Hd.
  destruct (settled_committed _ Hs) as [d Hc].
  pose proof (settled_sessionData _ Hs) as S1.
  pose proof (settled_pathname _ Hs) as P1.
  pose proof (settled_view _ Hs) as V1.
  pose proof (settled_authToast _ Hs) as T1.
  unfold current_deps in S1, P1, V1, T1.
  rewrite sessionData_changed_eq in S1. rewrite pathname_changed_eq in P1.
  rewrite view_changed_eq in V1. rewrite authToast_changed_eq in T1.
  rewrite Hc in S1, P1, V1, T1.
  apply negb_false_iff, AuthView_eqb_eq in V1.
  set (c1 := perform c [setView (toggled (view (state c)))]).
  assert (S2 : sessionData_changed (committed c1) (current_deps c1) = false).
  { unfold current_deps. rewrite sessionData_changed_eq.
    subst c1. cbn [perform committed session]. rewrite Hc. exact S1. }
  assert (P2 : pathname_changed (committed c1) (current_deps c1) = false).
  { unfold current_deps. rewrite pathname_changed_eq.
    subst c1. cbn [perform committed props]. rewrite Hc. exact P1. }
  assert (T2 : authToast_changed (committed c1) (current_deps c1) = false).
  { unfold current_deps. rewrite authToast_changed_eq.
    subst c1. cbn [perform committed state]. rewrite Hc. exact T1. }
  assert (V2 : view_changed (committed c1) (current_deps c1) = true).
  { unfold current_deps. rewrite view_changed_eq.
    subst c1. cbn [perform committed state]. rewrite Hc.
    change (view (writes (state c) [setView (toggled (view (state c)))]))
      with (toggled (view (state c))).
    rewrite V1, toggled_neq. reflexivity. }
  assert (U : settled c1 = false).
  { unfold settled, effects_due. rewrite S2, P2, V2. reflexivity. }
  assert (E : effects (committed c1) (props c1) (session c1) (state c1)
              = view_effect (state c1)).
  { rewrite effects_by_dependency. unfold current_deps in S2, P2, V2, T2.
    rewrite S2, P2, V2, T2. cbn [app]. apply app_nil_r. }
  exists (flush c1). split; [| split; [| split; [| split; [| split]]]].
  - apply (run_event_then_effects email_syntax_ok c click_footer_toggle c1);
      [exact Hs | discriminate | | exact U].
    cbn [deliver]. rewrite (footer_click_routing_disabled _ _ Hd). reflexivity.
  - reflexivity.
  - rewrite (flush_view_when_path_quiet _ P2). reflexivity.
  - unfold flush. cbn [state]. rewrite E.
    destruct (view_effect_cases (state c1)) as [[Hv E'] | [Hv E']]; rewrite E'.
    + change (view (state c1)) with (toggled (view (state c))) in Hv.
      rewrite Hv. reflexivity.
    + change (view (state c1)) with (toggled (view (state c))) in Hv.
      apply AuthView_eqb_neq in Hv. rewrite Hv. reflexivity.
  - apply settled_after_flush. exact P2.
  - unfold flush. cbn [trace]. rewrite E, calls_view_effect, app_nil_r.
    subst c1. cbn [perform trace calls filter is_call]. apply app_nil_r.
Qed.

(** Swapping the view twice, with routing disabled: the view ends on
    login, or on signup when it started there, and magic-link mode is
    off at the end whatever it was at the start: the mode is not kept
    across a visit to another view.  Nothing is called on the way. *)
Theorem toggle_there_and_back : forall c,
  settled c = true ->
  Js.truthy_flag (disableRouting (props c)) = true ->
  exists c4,
    steps c [click_footer_toggle; run_effects; click_footer_toggle; run_effects]
    = Some c4
    /\ view (state c4) = toggled (toggled (view (state c)))
    /\ (view (state c) = login \/ view (state c) = signup ->
        view (state c4) = view (state c))
    /\ isMagicLink (state c4) = false
    /\ settled c4 = true
    /\ trace c4 = trace c.
Proof.
  intros c Hs Hd.
  destruct (toggle_once c Hs Hd) as (c2 & R1 & Hp & Hv & Hm & Hs2 & Ht).
  assert (Hd2 : Js.truthy_flag (disableRouting (props c2)) = true)
    by (rewrite Hp; exact Hd).
  destruct (toggle_once c2 Hs2 Hd2) as (c4 & R2 & _ & Hv4 & Hm4 & Hs4 & Ht4).
  exists c4. split; [| split; [| split; [| split; [| split]]]].
  - change [click_footer_toggle; run_effects; click_footer_toggle; run_effects]
      with ([click_footer_toggle; run_effects]
            ++ [click_footer_toggle; run_effects]).
    rewrite (run_app email_syntax_ok), R1. exact R2.
  - rewrite Hv4, Hv. reflexivity.
  - rewrite Hv4, Hv. intros [E | E]; rewrite E; reflexivity.
  - rewrite Hm4, Hm, Hv.
    destruct (view (state c)); reflexivity.
  - exact Hs4.
  - rewrite Ht4. exact Ht.
Qed.

Lemma toasts_calls : forall ops, toasts (calls ops) = toasts ops.
Proof.
  induction ops as [| o ops IH]; auto.
  destruct o; simpl; auto; f_equal; exact IH.
Qed.

Lemma toasts_view_effect : forall s, toasts (view_effect s) = [].
Proof.
  intro s. destruct (view_effect_cases s) as [[_ E] | [_ E]]; rewrite E;
    reflexivity.
Qed.

Lemma effects_toasts : forall prev p o s,
  toasts (effects prev p o s) =
  if authToast_changed prev (deps_of p o s)
  then toasts (toast_effect p s) else [].
Proof.
  intros. rewrite effects_by_dependency. unfold toasts. rewrite !filter_app.
  fold (toasts (if sessionData_changed prev (deps_of p o s)
                then session_effect p o else [])).
  fold (toasts (if pathname_changed prev (deps_of p o s)
                then pathname_effect p else [])).
  fold (toasts (if view_changed prev (deps_of p o s)
                then view_effect s else [])).
  assert (A : toasts (if sessionData_changed prev (deps_of p o s)
                      then session_effect p o else []) = []).
  { destruct (sessionData_changed _ _); auto.
    destruct (session_effect_cases p o) as [E | E]; rewrite E; reflexivity. }
  assert (B : toasts (if pathname_changed prev (deps_of p o s)
                      then pathname_effect p else []) = []).
  { destruct (pathname_changed _ _); auto.
    destruct (pathname_effect_cases p) as [E | [v E]]; rewrite E; reflexivity. }
  assert (C : toasts (if view_changed prev (deps_of p o s)
                      then view_effect s else []) = []).
  { destruct (view_changed _ _); auto using toasts_view_effect. }
  rewrite A, B, C. cbn [app].
  destruct (authToast_changed _ _); reflexivity.
Qed.

(** The two ways a notification is presented.  A step hands something
    to the host's sink only by running the notification reaction, which
    is due only when the notification changed.  When the response to a
    submission carries an error message, the next effect pass forwards
    it to the sink exactly once if a sink is supplied, and the inline
    alert shows it if none is: one or the other, never both. *)
Theorem notification_channel :
  (forall c e c',
      step c e = Some c' ->
      toasts (trace c') =
      toasts (trace c)
      ++ (if authToast_changed (committed c) (current_deps c)
          then toasts (toast_effect (props c) (state c))
          else []))
  /\ (forall c r m,
      reach c -> settled c = true -> outstanding c <> [] ->
      error_message r = Some m ->
      exists c2,
        steps c [response r; run_effects] = Some c2
        /\ toasts (trace c2) =
           toasts (trace c)
           ++ (if toast (props c)
               then [call_toast {| description := m; variant := destructive;
                                   action := None |}]
               else [])
        /\ inline_alert_shown (props c2) (state c2) = negb (toast (props c))
        /\ settled c2 = true).
Proof.
  split.
  - intros c e c' H.
    destruct (step_trace email_syntax_ok _ _ _ H) as [Ht _].
    rewrite Ht. unfold toasts at 1. rewrite filter_app.
    fold (toasts (trace c)). fold (toasts (calls (step_ops c e))).
    rewrite toasts_calls. f_equal.
    unfold step_ops, toasts at 1. rewrite filter_app.
    fold (toasts (handler_ops c e)). fold (toasts (pending_ops c)).
    assert (Hh : toasts (handler_ops c e) = []).
    { destruct e; simpl handler_ops; try reflexivity.
      - destruct (onSubmit_resume_cases r) as [[_ E] | (m & _ & E)]; rewrite E;
          reflexivity.
      - destruct (footer_click_cases (props c) (state c)) as [E | [E | E]];
          cbv zeta in E; rewrite E; reflexivity. }
    rewrite Hh. cbn [app]. unfold pending_ops.
    destruct (settled c) eqn:Hs.
    + rewrite (settled_authToast _ Hs). reflexivity.
    + apply effects_toasts.
  - intros c r m Hr Hs Ho Em.
    destruct (flight_inv_reachable email_syntax_ok c Hr)
      as [[Ho' _] | (b & Ho' & Hl & Hn)]; [contradiction |].
    destruct (onSubmit_resume_cases r) as [[Em' _] | (m' & Em' & E)];
      [congruence |].
    rewrite Em in Em'. inversion Em'; subst m'. clear Em'.
    destruct (settled_committed _ Hs) as [d Hc].
    pose proof (settled_sessionData _ Hs) as S1.
    pose proof (settled_pathname _ Hs) as P1.
    pose proof (settled_view _ Hs) as V1.
    pose proof (settled_authToast _ Hs) as T1.
    unfold current_deps in S1, P1, V1, T1.
    rewrite sessionData_changed_eq in S1. rewrite pathname_changed_eq in P1.
    rewrite view_changed_eq in V1. rewrite authToast_changed_eq in T1.
    rewrite Hc in S1, P1, V1, T1. rewrite Hn in T1.
    apply negb_false_iff, option_eqb_None_r in T1.
    set (c1 := with_outstanding (perform c (onSubmit_resume r)) []).
    assert (St : state c1 =
                 writes (state c)
                   [setLoading false;
                    setAuthToast (Some {| description := m; variant := destructive;
                                          action := None |})]).
    { subst c1. cbn [with_outstanding perform state]. rewrite E. reflexivity. }
    assert (S2 : sessionData_changed (committed c1) (current_deps c1) = false).
    { unfold current_deps. rewrite sessionData_changed_eq.
      subst c1. cbn [with_outstanding perform committed session].
      rewrite Hc. exact S1. }
    assert (P2 : pathname_changed (committed c1) (current_deps c1) = false).
    { unfold current_deps. rewrite pathname_changed_eq.
      subst c1. cbn [with_outstanding perform committed props].
      rewrite Hc. exact P1. }
    assert (V2 : view_changed (committed c1) (current_deps c1) = false).
    { unfold current_deps. rewrite view_changed_eq, St.
      subst c1. cbn [with_outstanding perform committed].
      rewrite Hc. exact V1. }
    assert (T2 : authToast_changed (committed c1) (current_deps c1) = true).
    { unfold current_deps. rewrite authToast_changed_eq, St.
      subst c1. cbn [with_outstanding perform committed].
      rewrite Hc, T1. reflexivity. }
    assert (U : settled c1 = false).
    { unfold settled, effects_due. rewrite S2, P2, V2, T2. reflexivity. }
    assert (Ef : effects (committed c1) (props c1) (session c1) (state c1)
                 = toast_effect (props c) (state c1)).
    { rewrite effects_by_dependency. unfold current_deps in S2, P2, V2, T2.
      rewrite S2, P2, V2, T2. reflexivity. }
    assert (Te : toast_effect (props c) (state c1)
                 = if toast (props c)
                   then [call_toast {| description := m; variant := destructive;
                                       action := None |}]
                   else []).
    { unfold toast_effect. rewrite St. reflexivity. }
    exists (flush c1). split; [| split; [| split]].
    + apply (run_event_then_effects email_syntax_ok c (response r) c1);
        [exact Hs | discriminate | | exact U].
      cbn [deliver]. rewrite Ho'. reflexivity.
    + unfold flush. cbn [trace]. rewrite Ef, Te.
      unfold toasts at 1. rewrite filter_app. fold (toasts (trace c1)).
      subst c1. cbn [with_outstanding perform trace]. rewrite E.
      cbn [calls filter is_call]. rewrite app_nil_r.
      destruct (toast (props c)); reflexivity.
    + unfold inline_alert_shown.
      change (props (flush c1)) with (props c).
      change (state (flush c1))
        with (writes (state c1)
                (effects (committed c1) (props c1) (session c1) (state c1))).
      rewrite Ef, Te.
      destruct (toast (props c)); cbn [writes fold_left write];
        rewrite St; reflexivity.
    + apply settled_after_flush. exact P2.
Qed.

Lemma toggle_href_names_toggled : forall v,
  includes_view (Some (Js.after_last_slash (toggle_href v))) = Some (toggled v).
Proof. intros []; reflexivity. Qed.

(** The links the widget renders lead back into it: the final segment
    of the footer link names the view a direct swap would give, and the
    "forgot password" link names the forgot-password view.  With routing
    enabled and the default link component, following the footer link
    and having the host report that path ends on the swapped view, with
    the followed link as the only call. *)
Theorem links_name_their_views :
  (forall v,
      includes_view (Some (Js.after_last_slash (toggle_href v)))
      = Some (toggled v))
  /\ click forgot_password_link = [follow_href "/forgot-password"]
  /\ includes_view (Some (Js.after_last_slash "/forgot-password"))
     = Some forgot_password
  /\ (forall c p',
      settled c = true ->
      Js.truthy_flag (disableRouting (props c)) = false ->
      LinkComponent (props c) = None ->
      resolved_pathname p' = Some (toggle_href (view (state c))) ->
      resolved_pathname (props c) <> resolved_pathname p' ->
      exists c3,
        steps c [click_footer_toggle; host_render p'; run_effects] = Some c3
        /\ view (state c3) = toggled (view (state c))
        /\ trace c3 = trace c ++ [follow_href (toggle_href (view (state c)))]).
Proof.
  split; [exact toggle_href_names_toggled | split; [reflexivity | split;
    [reflexivity |]]].
  intros c p' Hs Hd Hl Hp Hne.
  destruct (settled_committed _ Hs) as [d Hc].
  pose proof (settled_sessionData _ Hs) as S1.
  pose proof (settled_pathname _ Hs) as P1.
  pose proof (settled_view _ Hs) as V1.
  pose proof (settled_authToast _ Hs) as T1.
  unfold current_deps in S1, P1, V1, T1.
  rewrite sessionData_changed_eq in S1. rewrite pathname_changed_eq in P1.
  rewrite view_changed_eq in V1. rewrite authToast_changed_eq in T1.
  rewrite Hc in S1, P1, V1, T1.
  apply negb_false_iff, option_string_eqb_eq in P1.
  set (c1 := perform c [follow_href (toggle_href (view (state c)))]).
  assert (Hs1 : settled c1 = true) by exact Hs.
  set (c2 := with_props c1 p').
  assert (S2 : sessionData_changed (committed c2) (current_deps c2) = false).
  { unfold current_deps. rewrite sessionData_changed_eq.
    subst c2 c1. cbn [with_props perform committed session].
    rewrite Hc. exact S1. }
  assert (P2 : pathname_changed (committed c2) (current_deps c2) = true).
  { unfold current_deps. rewrite pathname_changed_eq.
    subst c2 c1. cbn [with_props perform committed props].
    rewrite Hc, P1. apply negb_true_iff.
    destruct (option_eqb String.eqb _ _) eqn:Eq; auto.
    apply option_string_eqb_eq in Eq. contradiction. }
  assert (V2 : view_changed (committed c2) (current_deps c2) = false).
  { unfold current_deps. rewrite view_changed_eq.
    subst c2 c1. cbn [with_props perform committed].
    rewrite Hc. exact V1. }
  assert (T2 : authToast_changed (committed c2) (current_deps c2) = false).
  { unfold current_deps. rewrite authToast_changed_eq.
    subst c2 c1. cbn [with_props perform committed].
    rewrite Hc. exact T1. }
  assert (U : settled c2 = false).
  { unfold settled, effects_due. rewrite S2, P2. reflexivity. }
  assert (Ef : effects (committed c2) (props c2) (session c2) (state c2)
               = [setView (toggled (view (state c)))]).
  { rewrite effects_by_dependency. unfold current_deps in S2, P2, V2, T2.
    rewrite S2, P2, V2, T2. cbn [app]. rewrite app_nil_r.
    subst c2. cbn [with_props props].
    rewrite pathname_effect_eq, Hp, toggle_href_names_toggled. reflexivity. }
  exists (flush c2). split; [| split].
  - cbn [run].
    rewrite (handle_settled email_syntax_ok c click_footer_toggle Hs)
      by discriminate.
    cbn [deliver]. rewrite (footer_click_default_link _ _ Hd Hl). fold c1.
    rewrite (handle_settled email_syntax_ok c1 (host_render p') Hs1)
      by discriminate.
    cbn [deliver]. fold c2.
    rewrite (handle_pending email_syntax_ok c2 U). reflexivity.
  - unfold flush. cbn [state]. rewrite Ef. reflexivity.
  - unfold flush. cbn [trace]. rewrite Ef. cbn [calls filter is_call].
    rewrite app_nil_r. reflexivity.
Qed.

(** What is typed into the password field stays in the password cell
    when magic-link mode is switched on: the field is then disabled and
    hidden, and a submit still sends that password in the sign-in call. *)
Theorem password_is_sent_in_magic_link_mode : forall c,
  settled c = true ->
  btn_disabled (magic_link_button (props c) (state c)) = false ->
  can_submit email_syntax_ok (state c) = true ->
  exists c2,
    steps c [click_magic_link; submit] = Some c2
    /\ isMagicLink (state c2) = true
    /\ el_disabled (password_input (state c2)) = true
    /\ password_block_hidden (state c2) = true
    /\ trace c2 =
       trace c
       ++ [call_backend (signIn_email (email (state c)) (password (state c)))].
Proof.
  intros c Hs Hb Hc.
  set (c1 := perform c [setIsMagicLink true]).
  assert (Hs1 : settled c1 = true) by exact Hs.
  assert (Hc1 : can_submit email_syntax_ok (state c1) = true).
  { rewrite <- Hc. unfold can_submit, invalid. subst c1. simpl.
    destruct (isMagicLink (state c)); simpl; rewrite ?andb_true_r; reflexivity. }
  eexists. split; [| split; [| split; [| split]]].
  - cbn [run].
    rewrite (handle_settled email_syntax_ok c click_magic_link Hs)
      by discriminate.
    cbn [deliver]. unfold press. rewrite Hb.
    cbn [magic_link_button btn_onClick]. fold c1.
    rewrite (handle_settled email_syntax_ok c1 submit Hs1) by discriminate.
    cbn [deliver]. rewrite Hc1. reflexivity.
  - reflexivity.
  - reflexivity.
  - reflexivity.
  - cbn [trace with_outstanding perform]. subst c1.
    cbn [trace perform calls filter is_call onSubmit_start state writes
         fold_left write email password].
    rewrite app_nil_r. reflexivity.
Qed.

End Journeys.

(** ** The further properties on concrete inputs *)

Lemma magic_link_switched_on_by_button_only_witness :
  (isMagicLink (state (after routing_off_props [run_effects])) = true
   \/ (click_magic_link = click_magic_link
       /\ view (state (after routing_off_props [run_effects])) = login
       /\ Js.truthy_flag (magicLink (props (after routing_off_props [run_effects])))
          = true))
  /\ isMagicLink
       (state (after plain_props
                 [run_effects; type_email "a@b.com"; click_footer_toggle]))
     = false.
Proof.
  destruct (magic_link_switched_on_by_button_only has_at) as [H1 H2]. split.
  - apply (H1 (after routing_off_props [run_effects]) click_magic_link
              (after routing_off_props [run_effects; click_magic_link]));
      reflexivity.
  - apply (H2 [run_effects; type_email "a@b.com"; click_footer_toggle]
              (mount plain_props pending)).
    + simpl. intuition discriminate.
    + reflexivity.
    + reflexivity.
Defined.

Lemma credentials_change_by_typing_only_witness :
  email (state (in_flight plain_props "a@b.com" "x"))
  = email (state (typed_in plain_props "a@b.com" "x"))
  /\ password (state (in_flight plain_props "a@b.com" "x"))
     = password (state (typed_in plain_props "a@b.com" "x"))
  /\ email (state (after plain_props [run_effects; type_email "a@b.com"]))
     = "a@b.com".
Proof.
  destruct (credentials_change_by_typing_only has_at
              (typed_in plain_props "a@b.com" "x") submit
              (in_flight plain_props "a@b.com" "x") eq_refl)
    as (H1 & H2 & _).
  split; [| split].
  - apply H1. discriminate.
  - apply H2. discriminate.
  - apply (proj1 (proj2 (proj2
             (credentials_change_by_typing_only has_at
                (after plain_props [run_effects]) (type_email "a@b.com")
                (after plain_props [run_effects; type_email "a@b.com"])
                eq_refl))) "a@b.com").
    reflexivity.
Defined.

Lemma view_changes_by_path_or_toggle_only_witness :
  (settled (after routing_off_props [run_effects]) = false
   /\ pathname_changed (committed (after routing_off_props [run_effects]))
        (current_deps (after routing_off_props [run_effects])) = true
   /\ pathname_effect (props (after routing_off_props [run_effects]))
      = [setView
           (view (state (after routing_off_props
                           [run_effects; click_footer_toggle])))])
  \/ (click_footer_toggle = click_footer_toggle
      /\ view (state (after routing_off_props [run_effects; click_footer_toggle]))
         = toggled (view (state (after routing_off_props [run_effects])))
      /\ (view (state (after routing_off_props [run_effects; click_footer_toggle]))
          = login
          \/ view (state (after routing_off_props
                            [run_effects; click_footer_toggle]))
             = signup)).
Proof.
  apply (view_changes_by_path_or_toggle_only has_at
           (after routing_off_props [run_effects]) click_footer_toggle
           (after routing_off_props [run_effects; click_footer_toggle])).
  - reflexivity.
  - discriminate.
Defined.


Lemma only_known_calls_witness :
  Forall known_call
    (trace (after sink_props
              [run_effects; session_update (present alice); run_effects;
               click_footer_toggle; type_email "a@b.com"; submit;
               response invalid_credentials; run_effects;
               click_forgot_password])).
Proof.
  apply (only_known_calls has_at).
  exists sink_props, pending,
    [run_effects; session_update (present alice); run_effects;
     click_footer_toggle; type_email "a@b.com"; submit;
     response invalid_credentials; run_effects; click_forgot_password].
  reflexivity.
Defined.

Lemma toggle_there_and_back_witness :
  exists c4,
    run has_at (after routing_off_props [run_effects; click_magic_link])
      [click_footer_toggle; run_effects; click_footer_toggle; run_effects]
    = Some c4
    /\ view (state c4)
       = toggled (toggled (view (state (after routing_off_props
                                          [run_effects; click_magic_link]))))
    /\ (view (state (after routing_off_props [run_effects; click_magic_link]))
        = login
        \/ view (state (after routing_off_props [run_effects; click_magic_link]))
           = signup ->
        view (state c4)
        = view (state (after routing_off_props [run_effects; click_magic_link])))
    /\ isMagicLink (state c4) = false
    /\ settled c4 = true
    /\ trace c4 = trace (after routing_off_props [run_effects; click_magic_link]).
Proof.
  apply (toggle_there_and_back has_at
           (after routing_off_props [run_effects; click_magic_link]));
    reflexivity.
Defined.

Lemma notification_channel_witness :
  exists c2,
    run has_at (in_flight_with_sink "a@b.com" "x")
      [response invalid_credentials; run_effects] = Some c2
    /\ toasts (trace c2) =
       toasts (trace (in_flight_with_sink "a@b.com" "x"))
       ++ (if toast (props (in_flight_with_sink "a@b.com" "x"))
           then [call_toast {| description := "Invalid credentials";
                               variant := destructive; action := None |}]
           else [])
    /\ inline_alert_shown (props c2) (state c2)
       = negb (toast (props (in_flight_with_sink "a@b.com" "x")))
    /\ settled c2 = true.
Proof.
  apply (proj2 (notification_channel has_at)
           (in_flight_with_sink "a@b.com" "x") invalid_credentials
           "Invalid credentials").
  - exists sink_props, pending,
      [run_effects; type_email "a@b.com"; type_password "x"; submit].
    reflexivity.
  - reflexivity.
  - discriminate.
  - reflexivity.
Defined.

Lemma links_name_their_views_witness :
  exists c3,
    run has_at (after plain_props [run_effects])
      [click_footer_toggle;
       host_render (sample_props None (Some "/auth/signup") None None None);
       run_effects] = Some c3
    /\ view (state c3) = toggled (view (state (after plain_props [run_effects])))
    /\ trace c3
       = trace (after plain_props [run_effects])
         ++ [follow_href
               (toggle_href (view (state (after plain_props [run_effects]))))].
Proof.
  apply (proj2 (proj2 (proj2 (links_name_their_views has_at)))
           (after plain_props [run_effects])
           (sample_props None (Some "/auth/signup") None None None));
    try reflexivity.
  discriminate.
Defined.

Lemma password_is_sent_in_magic_link_mode_witness :
  exists c2,
    run has_at (after routing_off_props
                  [run_effects; type_email "a@b.com"; type_password "secret"])
      [click_magic_link; submit] = Some c2
    /\ isMagicLink (state c2) = true
    /\ el_disabled (password_input (state c2)) = true
    /\ password_block_hidden (state c2) = true
    /\ trace c2 =
       trace (after routing_off_props
                [run_effects; type_email "a@b.com"; type_password "secret"])
       ++ [call_backend
             (signIn_email
                (email (state (after routing_off_props
                                 [run_effects; type_email "a@b.com";
                                  type_password "secret"])))
                (password (state (after routing_off_props
                                    [run_effects; type_email "a@b.com";
                                     type_password "secret"]))))].
Proof.
  apply (password_is_sent_in_magic_link_mode has_at
           (after routing_off_props
              [run_effects; type_email "a@b.com"; type_password "secret"]));
    reflexivity.
Defined.
